(** * capture_screen_avi: the recording session of [ScreenRecorder]

    A shallow embedding of [src/capture_screen_avi.py].  The widget's
    fields become a record, every method becomes a computation in a small
    state-and-exception monad, and each call that leaves the program (the
    file dialog, the Qt timer, the screen grab, OpenCV's resize, colour
    conversion and [VideoWriter]) is appended to a log of events, so that
    statements such as "the encoder is opened once" or "every written frame
    has the session geometry" are statements about that log.

    Library calls are recorded, not executed: a pixel buffer is the term of
    the calls that produced it, and its shape is read off that term.  What
    the outside world answers (the path chosen in the dialog, the size of
    the grabbed pixmap, whether the writer reports that it is open, whether
    its release raises) is an argument of the method that asks.  Where a
    library call raises on what the program hands it (a null image has no
    buffer, [cv2.resize] rejects an empty size), the model raises too.

    Python's [float] is IEEE binary64; it is modelled by the Standard
    Library's [SpecFloat] operations at precision 53, so that
    [int(arr.shape[1] * scale)] and [int(1000 / max(1, fps))] are computed
    with the roundings the interpreter performs. *)

From Stdlib Require Import ZArith Zpower List String Ascii Bool Lia.
From Stdlib Require Import Strings.Byte.
From Stdlib Require Import QArith Qround.
From Stdlib Require Import Floats.SpecFloat.
Import ListNotations.

Local Open Scope Z_scope.

(* ===================================================================== *)
(** ** Python numbers *)
(* ===================================================================== *)

Module PyFloat.

(** binary64: 53 bits of precision, infinities at exponent 1024. *)
Definition prec : Z := 53.
Definition emax : Z := 1024.

Definition float := spec_float.

(** [float(z)]: a Python integer converted to the nearest double
    (exact as long as [|z| <= 2^53]). *)
Definition float_of_int (z : Z) : float := binary_normalize prec emax z 0 false.

(** The literals of the source. *)
Definition f_1_0 : float := float_of_int 1.
Definition f_0_5 : float := binary_normalize prec emax 1 (-1) false.
Definition f_0_25 : float := binary_normalize prec emax 1 (-2) false.
Definition f_0_0 : float := S754_zero false.

(** [a / b] on two integers: true division, rounded to nearest even.
    [None] stands for [ZeroDivisionError]. *)
Definition py_truediv (a b : Z) : option float :=
  if b =? 0 then None
  else Some (SFdiv prec emax (float_of_int a) (float_of_int b)).

(** [n * x] with [n] an integer and [x] a float: the integer is converted
    first, the product is rounded to nearest even. *)
Definition py_mul_int_float (n : Z) (x : float) : float :=
  SFmul prec emax (float_of_int n) x.

(** [x != y] on floats. *)
Definition py_float_ne (x y : float) : bool := negb (SFeqb x y).

(** [int(x)]: truncation toward zero; [None] stands for the
    [OverflowError] / [ValueError] raised on infinities and NaN. *)
Definition py_int (x : float) : option Z :=
  match x with
  | S754_zero _ => Some 0
  | S754_finite s m e =>
      let a := match e with
               | Zneg p => Z.shiftr (Zpos m) (Zpos p)
               | _ => Z.shiftl (Zpos m) e
               end in
      Some (if s then - a else a)
  | S754_infinity _ => None
  | S754_nan => None
  end.

(** Two notions used to state what the roundings above compute.
    [rne m B]: the quotient of [m] by [B] rounded to the nearest integer,
    ties going to the even one. *)
Definition rne (m B : Z) : Z :=
  let q := m / B in
  match (2 * (m mod B)) ?= B with
  | Lt => q
  | Eq => if Z.even q then q else q + 1
  | Gt => q + 1
  end.

(** The left shift that brings a positive integer below [2^53] to
    exactly 53 bits. *)
Definition norm_shift (n : Z) : Z := 53 - Zdigits2 n.

(** The second half of [binary_round_aux]: a rounded mantissa that has
    gained a bit is shifted once more, then the result is packed. *)
Definition round_finish (sx : bool) (m e : Z) : spec_float :=
  let '(mrs'', e'') := shr_fexp prec emax m e loc_Exact in
  match shr_m mrs'' with
  | Z0 => S754_zero sx
  | Zpos m => if e'' <=? emax - prec then S754_finite sx m e'' else S754_infinity sx
  | Zneg _ => S754_nan
  end.

End PyFloat.

(* ===================================================================== *)
(** ** pathlib: the suffix of a path *)
(* ===================================================================== *)

Module Pathlib.

(** A [Path] is kept as the string it was built from, with [/] as the
    separator (the one Qt's file dialog returns on every platform). *)
Definition Path := string.

Definition slash : ascii := "/"%char.
Definition dot : ascii := "."%char.

Definition has_slash (s : string) : bool :=
  existsb (Ascii.eqb slash) (list_ascii_of_string s).

(** [name]: the final component, the text after the last separator. *)
Fixpoint name (p : string) : string :=
  match p with
  | EmptyString => EmptyString
  | String c r =>
      if has_slash r then name r
      else if Ascii.eqb c slash then r
      else p
  end.

(** [s.rfind('.')]: index of the last dot, [None] for Python's -1. *)
Fixpoint rfind_dot (s : string) : option nat :=
  match s with
  | EmptyString => None
  | String c r =>
      match rfind_dot r with
      | Some i => Some (S i)
      | None => if Ascii.eqb c dot then Some O else None
      end
  end.

(** [s[i:]]. *)
Fixpoint drop (i : nat) (s : string) : string :=
  match i, s with
  | O, _ => s
  | S k, EmptyString => EmptyString
  | S k, String _ r => drop k r
  end.

(** [PurePath.suffix]:
    [i = name.rfind('.'); name[i:] if 0 < i < len(name) - 1 else ''] *)
Definition suffix (p : Path) : string :=
  let n := name p in
  match rfind_dot n with
  | Some i =>
      if (Nat.ltb 0 i && Nat.ltb (S i) (String.length n))%bool
      then drop i n else EmptyString
  | None => EmptyString
  end.

(** [str.lower] on the ASCII range. *)
Definition lower_ascii (c : ascii) : ascii :=
  let n := nat_of_ascii c in
  if (Nat.leb 65 n && Nat.leb n 90)%bool then ascii_of_nat (n + 32) else c.

Fixpoint lower (s : string) : string :=
  match s with
  | EmptyString => EmptyString
  | String c r => String (lower_ascii c) (lower r)
  end.

Definition has_dot (s : string) : bool :=
  existsb (Ascii.eqb dot) (list_ascii_of_string s).

(** A path written as directory prefix, stem and extension: the prefix is
    empty or ends with a separator, the stem is a non-empty file name part,
    the extension is non-empty and contains neither dot nor separator. *)
Definition file_form (pre stem ext : string) : Prop :=
  (pre = EmptyString \/ exists d, pre = (d ++ "/")%string)
  /\ stem <> EmptyString /\ has_slash stem = false
  /\ ext <> EmptyString /\ has_slash ext = false /\ has_dot ext = false.

End Pathlib.

(* ===================================================================== *)
(** ** OpenCV and numpy, at the level the program uses them *)
(* ===================================================================== *)

Module Cv2.

Inductive interpolation := INTER_NEAREST | INTER_LINEAR | INTER_CUBIC | INTER_AREA.
Inductive color_code := COLOR_BGRA2BGR.

(** A pixel buffer is recorded by the calls that produced it; its shape
    follows from them.  [FromBuffer h w] is
    [np.frombuffer(ptr, dtype=np.uint8).reshape((height, width, 4))]. *)
Inductive ndarray :=
| FromBuffer (height width : Z)
| Resize (src : ndarray) (dsize : Z * Z) (interp : interpolation)
| CvtColor (src : ndarray) (code : color_code).

(** [arr.shape], as (rows, columns, channels). *)
Fixpoint shape (a : ndarray) : Z * Z * Z :=
  match a with
  | FromBuffer h w => (h, w, 4)
  | Resize src (w, h) _ => let '(_, _, c) := shape src in (h, w, c)
  | CvtColor src COLOR_BGRA2BGR => let '(h, w, _) := shape src in (h, w, 3)
  end.

Definition rows (a : ndarray) : Z := fst (fst (shape a)).
Definition cols (a : ndarray) : Z := snd (fst (shape a)).
Definition channels (a : ndarray) : Z := snd (shape a).

(** A size (width, height) with both sides positive. *)
Definition nonempty (dsize : Z * Z) : bool :=
  ((0 <? fst dsize) && (0 <? snd dsize))%bool.

(** [cv2.resize(src, dsize, interpolation=interp)].  [None] stands for the
    [cv2.error] that OpenCV raises when [src] is empty or when a side of
    [dsize] is not positive: with such a [dsize] the size is to be taken
    from the factors [fx], [fy], which the program leaves at 0. *)
Definition resize (src : ndarray) (dsize : Z * Z) (interp : interpolation)
  : option ndarray :=
  if (nonempty (cols src, rows src) && nonempty dsize)%bool
  then Some (Resize src dsize interp)
  else None.

(** [cv2.VideoWriter_fourcc(c1, c2, c3, c4)]: the four characters packed
    into one integer, least significant byte first. *)
Definition VideoWriter_fourcc (c1 c2 c3 c4 : ascii) : Z :=
  Z.lor (Z.lor (Z.land (Z.of_nat (nat_of_ascii c1)) 255)
               (Z.shiftl (Z.land (Z.of_nat (nat_of_ascii c2)) 255) 8))
        (Z.lor (Z.shiftl (Z.land (Z.of_nat (nat_of_ascii c3)) 255) 16)
               (Z.shiftl (Z.land (Z.of_nat (nat_of_ascii c4)) 255) 24)).

(** A [cv2.VideoWriter] object, as constructed. *)
Record VideoWriter := {
  vw_filename : string;
  vw_fourcc : Z;
  vw_fps : Z;
  vw_frameSize : Z * Z;
  vw_isOpened : bool
}.

End Cv2.

(* ===================================================================== *)
(** ** The widget and its methods *)
(* ===================================================================== *)

Module Recorder.
Import PyFloat Pathlib Cv2.

(** The entries of [scale_box], in the order of [addItems]; the first one
    is the "original size" entry. *)
Inductive scale_item := Original | Half | Third | Quarter.

(** [QTimer]: whether it is running, and its interval in milliseconds. *)
Record QTimer := { timer_active : bool; timer_interval : Z }.

(** What [grabWindow(0)] hands back: the size in physical pixels and
    whether the device pixel ratio is 1.0. *)
Record QPixmap := { pix_width : Z; pix_height : Z; pix_dpr_is_one : bool }.

(** The fields of [ScreenRecorder] that the methods read or write. *)
Record ScreenRecorder := {
  timer : QTimer;
  recording : bool;
  screen : bool;                      (* primaryScreen() is not None *)
  last_frame_time : float;
  writer : option VideoWriter;
  target_path : option Path;
  target_size : option (Z * Z);       (* (w, h) *)
  btn_start_enabled : bool;
  btn_stop_enabled : bool;
  fps_box : Z;
  scale_box : scale_item;
  keep_ratio : bool
}.

(** Calls that leave the program, in the order they are made. *)
Inductive event :=
| EvDialog                                   (* QFileDialog.getSaveFileName *)
| EvTimerStart (ms : Z)                      (* timer.start(ms) *)
| EvTimerStop                                (* timer.stop() *)
| EvGrab                                     (* screen.grabWindow(0) *)
| EvPreview (keep_aspect : bool)             (* preview.setPixmap(scaled) *)
| EvOpen (w : VideoWriter)                   (* cv2.VideoWriter(...) *)
| EvWrite (w : VideoWriter) (frame : ndarray)  (* writer.write(frame) *)
| EvRelease (w : VideoWriter)                (* writer.release() *)
| EvSuperClose.                              (* super().closeEvent(e) *)

Inductive exn :=
| RuntimeError (msg : string)
| ZeroDivisionError
| OverflowError
| AttributeError
| Cv2Error.

Record world := { self : ScreenRecorder; log : list event }.

(** *** State and exceptions *)

Inductive result (A : Type) := Ret (a : A) | Exc (e : exn).
Arguments Ret {A} a.
Arguments Exc {A} e.

Definition M (A : Type) := world -> result A * world.

Definition ret {A} (a : A) : M A := fun w => (Ret a, w).
Definition raise {A} (e : exn) : M A := fun w => (Exc e, w).
Definition bind {A B} (c : M A) (k : A -> M B) : M B :=
  fun w => match c w with
           | (Ret a, w') => k a w'
           | (Exc e, w') => (Exc e, w')
           end.
(** [try: c  except Exception: h] *)
Definition try_except {A} (c : M A) (h : M A) : M A :=
  fun w => match c w with
           | (Ret a, w') => (Ret a, w')
           | (Exc _, w') => h w'
           end.

Notation "x <- c ;; k" := (bind c (fun x => k))
  (at level 61, c at next level, right associativity).
Notation "c ;; k" := (bind c (fun _ => k))
  (at level 61, right associativity).

Definition get : M ScreenRecorder := fun w => (Ret (self w), w).
Definition modify (f : ScreenRecorder -> ScreenRecorder) : M unit :=
  fun w => (Ret tt, {| self := f (self w); log := log w |}).
Definition emit (e : event) : M unit :=
  fun w => (Ret tt, {| self := self w; log := log w ++ [e] |}).
Definition of_option {A} (o : option A) (e : exn) : M A :=
  match o with Some a => ret a | None => raise e end.

(** *** Field updates *)

Definition set_timer (t : QTimer) (s : ScreenRecorder) : ScreenRecorder :=
  {| timer := t; recording := recording s; screen := screen s;
     last_frame_time := last_frame_time s; writer := writer s;
     target_path := target_path s; target_size := target_size s;
     btn_start_enabled := btn_start_enabled s;
     btn_stop_enabled := btn_stop_enabled s; fps_box := fps_box s;
     scale_box := scale_box s; keep_ratio := keep_ratio s |}.

Definition set_recording (b : bool) (s : ScreenRecorder) : ScreenRecorder :=
  {| timer := timer s; recording := b; screen := screen s;
     last_frame_time := last_frame_time s; writer := writer s;
     target_path := target_path s; target_size := target_size s;
     btn_start_enabled := btn_start_enabled s;
     btn_stop_enabled := btn_stop_enabled s; fps_box := fps_box s;
     scale_box := scale_box s; keep_ratio := keep_ratio s |}.

Definition set_last_frame_time (x : float) (s : ScreenRecorder) : ScreenRecorder :=
  {| timer := timer s; recording := recording s; screen := screen s;
     last_frame_time := x; writer := writer s;
     target_path := target_path s; target_size := target_size s;
     btn_start_enabled := btn_start_enabled s;
     btn_stop_enabled := btn_stop_enabled s; fps_box := fps_box s;
     scale_box := scale_box s; keep_ratio := keep_ratio s |}.

Definition set_writer (o : option VideoWriter) (s : ScreenRecorder) : ScreenRecorder :=
  {| timer := timer s; recording := recording s; screen := screen s;
     last_frame_time := last_frame_time s; writer := o;
     target_path := target_path s; target_size := target_size s;
     btn_start_enabled := btn_start_enabled s;
     btn_stop_enabled := btn_stop_enabled s; fps_box := fps_box s;
     scale_box := scale_box s; keep_ratio := keep_ratio s |}.

Definition set_target_path (o : option Path) (s : ScreenRecorder) : ScreenRecorder :=
  {| timer := timer s; recording := recording s; screen := screen s;
     last_frame_time := last_frame_time s; writer := writer s;
     target_path := o; target_size := target_size s;
     btn_start_enabled := btn_start_enabled s;
     btn_stop_enabled := btn_stop_enabled s; fps_box := fps_box s;
     scale_box := scale_box s; keep_ratio := keep_ratio s |}.

Definition set_target_size (o : option (Z * Z)) (s : ScreenRecorder) : ScreenRecorder :=
  {| timer := timer s; recording := recording s; screen := screen s;
     last_frame_time := last_frame_time s; writer := writer s;
     target_path := target_path s; target_size := o;
     btn_start_enabled := btn_start_enabled s;
     btn_stop_enabled := btn_stop_enabled s; fps_box := fps_box s;
     scale_box := scale_box s; keep_ratio := keep_ratio s |}.

Definition set_btn_start (b : bool) (s : ScreenRecorder) : ScreenRecorder :=
  {| timer := timer s; recording := recording s; screen := screen s;
     last_frame_time := last_frame_time s; writer := writer s;
     target_path := target_path s; target_size := target_size s;
     btn_start_enabled := b;
     btn_stop_enabled := btn_stop_enabled s; fps_box := fps_box s;
     scale_box := scale_box s; keep_ratio := keep_ratio s |}.

Definition set_btn_stop (b : bool) (s : ScreenRecorder) : ScreenRecorder :=
  {| timer := timer s; recording := recording s; screen := screen s;
     last_frame_time := last_frame_time s; writer := writer s;
     target_path := target_path s; target_size := target_size s;
     btn_start_enabled := btn_start_enabled s;
     btn_stop_enabled := b; fps_box := fps_box s;
     scale_box := scale_box s; keep_ratio := keep_ratio s |}.

Definition set_fps_box (v : Z) (s : ScreenRecorder) : ScreenRecorder :=
  {| timer := timer s; recording := recording s; screen := screen s;
     last_frame_time := last_frame_time s; writer := writer s;
     target_path := target_path s; target_size := target_size s;
     btn_start_enabled := btn_start_enabled s;
     btn_stop_enabled := btn_stop_enabled s; fps_box := v;
     scale_box := scale_box s; keep_ratio := keep_ratio s |}.

Definition set_scale_box (i : scale_item) (s : ScreenRecorder) : ScreenRecorder :=
  {| timer := timer s; recording := recording s; screen := screen s;
     last_frame_time := last_frame_time s; writer := writer s;
     target_path := target_path s; target_size := target_size s;
     btn_start_enabled := btn_start_enabled s;
     btn_stop_enabled := btn_stop_enabled s; fps_box := fps_box s;
     scale_box := i; keep_ratio := keep_ratio s |}.

Definition set_keep_ratio (b : bool) (s : ScreenRecorder) : ScreenRecorder :=
  {| timer := timer s; recording := recording s; screen := screen s;
     last_frame_time := last_frame_time s; writer := writer s;
     target_path := target_path s; target_size := target_size s;
     btn_start_enabled := btn_start_enabled s;
     btn_stop_enabled := btn_stop_enabled s; fps_box := fps_box s;
     scale_box := scale_box s; keep_ratio := b |}.

(** *** [__init__] *)

(** [has_screen] tells whether [QApplication.primaryScreen()] gave a
    screen.  The spin box starts at 20, the combo box at its first item,
    the check box checked. *)
Definition init (has_screen : bool) : world :=
  {| self := {| timer := {| timer_active := false; timer_interval := 0 |};
                recording := false;
                screen := has_screen;
                last_frame_time := f_0_0;
                writer := None;
                target_path := None;
                target_size := None;
                btn_start_enabled := true;
                btn_stop_enabled := false;
                fps_box := 20;
                scale_box := Original;
                keep_ratio := true |};
     log := [] |}.

(** *** [qimage_from_pixmap], [qimage_to_numpy] *)

Record QImage := { img_width : Z; img_height : Z }.

Definition qimage_from_pixmap (pix : QPixmap) : QImage :=
  {| img_width := pix_width pix; img_height := pix_height pix |}.

(** An image with a side of zero pixels is a null image: it has no
    buffer. *)
Definition isNull (img : QImage) : bool :=
  negb (nonempty (img_width img, img_height img)).

(** [img.bits()] is [None] for a null image, and [ptr.setsize(...)] on it
    raises [AttributeError]; otherwise the buffer holds
    [height * width * 4] bytes and the reshape goes through. *)
Definition qimage_to_numpy (img : QImage) : M ndarray :=
  let width := img_width img in
  let height := img_height img in
  if isNull img then raise AttributeError
  else ret (FromBuffer height width).

(** *** [_choose_target] *)

(** [chosen] is the path the dialog returns, empty when the user cancels. *)
Definition _choose_target (chosen : string) : M (option Path) :=
  emit EvDialog ;;
  ret (if String.eqb chosen EmptyString then None else Some chosen).

(** *** [_scale_factor] *)

Definition one_third : float :=
  Eval vm_compute in
    match py_truediv 1 3 with Some x => x | None => S754_nan end.

Definition scale_of_item (m : scale_item) : float :=
  match m with
  | Original => f_1_0
  | Half => f_0_5
  | Third => one_third
  | Quarter => f_0_25
  end.

Definition _scale_factor : M float :=
  s <- get ;;
  ret (scale_of_item (scale_box s)).

(** *** [_init_writer] *)

Definition fourcc_of_path (out_path : Path) : Z :=
  if String.eqb (lower (suffix out_path)) ".mp4"
  then VideoWriter_fourcc "m" "p" "4" "v"
  else VideoWriter_fourcc "X" "V" "I" "D".

(** [opens] is the answer [isOpened()] gives for the writer just built.
    The text of the error message is immaterial and is given in English. *)
Definition _init_writer (opens : bool) (frame_w frame_h fps : Z)
           (out_path : Path) : M VideoWriter :=
  let fourcc := fourcc_of_path out_path in
  let writer := {| vw_filename := out_path; vw_fourcc := fourcc;
                   vw_fps := fps; vw_frameSize := (frame_w, frame_h);
                   vw_isOpened := opens |} in
  emit (EvOpen writer) ;;
  if negb (vw_isOpened writer)
  then raise (RuntimeError "VideoWriter cannot be opened")
  else ret writer.

(** *** [_start_recording] *)

Definition _start_recording (chosen : string) : M unit :=
  s <- get ;;
  if recording s then ret tt
  else
    p <- _choose_target chosen ;;
    modify (set_target_path p) ;;
    match p with
    | None => ret tt
    | Some _ =>
        s <- get ;;
        let fps := fps_box s in
        q <- of_option (py_truediv 1000 (Z.max 1 fps)) ZeroDivisionError ;;
        interval_ms <- of_option (py_int q) OverflowError ;;
        emit (EvTimerStart interval_ms) ;;
        modify (set_timer {| timer_active := true;
                             timer_interval := interval_ms |}) ;;
        modify (set_btn_start false) ;;
        modify (set_btn_stop true) ;;
        modify (set_recording true) ;;
        modify (set_last_frame_time f_0_0)
    end.

(** *** [_release_writer] *)

(** [release_raises] tells whether [writer.release()] raises. *)
Definition release (release_raises : bool) (w : VideoWriter) : M unit :=
  emit (EvRelease w) ;;
  if release_raises then raise Cv2Error else ret tt.

Definition _release_writer (release_raises : bool) : M unit :=
  s <- get ;;
  match writer s with
  | Some w =>
      try_except (release release_raises w) (ret tt) ;;
      modify (set_writer None)
  | None => ret tt
  end.

(** *** [_stop_recording], [closeEvent] *)

Definition _stop_recording (release_raises : bool) : M unit :=
  s <- get ;;
  if negb (recording s) then ret tt
  else
    emit EvTimerStop ;;
    modify (fun s => set_timer {| timer_active := false;
                                  timer_interval := timer_interval (timer s) |} s) ;;
    modify (set_btn_start true) ;;
    modify (set_btn_stop false) ;;
    modify (set_recording false) ;;
    _release_writer release_raises ;;
    modify (set_target_path None) ;;
    modify (set_target_size None).

Definition closeEvent (release_raises : bool) : M unit :=
  _stop_recording release_raises ;;
  emit EvSuperClose.

(** *** [_on_tick] *)

Definition scaled_dim (n : Z) (scale : float) : M Z :=
  of_option (py_int (py_mul_int_float n scale)) OverflowError.

Definition cv2_resize (src : ndarray) (dsize : Z * Z) (interp : interpolation)
  : M ndarray :=
  of_option (resize src dsize interp) Cv2Error.

(** The part of [_on_tick] between the recording test and the lazy
    construction of the writer (its step 3 up to [cvtColor]): the captured
    image as a BGRA array, the optional downscale, BGRA to BGR.  It raises
    [AttributeError] on a null grab and [cv2.error] when a side of the
    scaled size is zero; the array that reaches [cvtColor] is not empty. *)
Definition convert (pix : QPixmap) : M ndarray :=
  let img := qimage_from_pixmap pix in
  arr <- qimage_to_numpy img ;;
  scale <- _scale_factor ;;
  arr <- (if py_float_ne scale f_1_0 then
            new_w <- scaled_dim (cols arr) scale ;;
            new_h <- scaled_dim (rows arr) scale ;;
            cv2_resize arr (new_w, new_h) INTER_AREA
          else ret arr) ;;
  ret (CvtColor arr COLOR_BGRA2BGR).

Definition size_eqb (a b : Z * Z) : bool :=
  ((fst a =? fst b) && (snd a =? snd b))%bool.

(** [pix] is what the grab returns, [opens] what [isOpened()] would answer
    if a writer is built during this tick. *)
Definition _on_tick (pix : QPixmap) (opens : bool) : M unit :=
  s <- get ;;
  if negb (screen s) then ret tt
  else
    emit EvGrab ;;
    let pix := if pix_dpr_is_one pix then pix
               else {| pix_width := pix_width pix;
                       pix_height := pix_height pix;
                       pix_dpr_is_one := true |} in
    emit (EvPreview (keep_ratio s)) ;;
    if negb (recording s) then ret tt
    else
      frame_bgr <- convert pix ;;
      s <- get ;;
      (match writer s with
       | None =>
           let h := rows frame_bgr in
           let w := cols frame_bgr in
           let fps := fps_box s in
           out_path <- of_option (target_path s) AttributeError ;;
           wr <- _init_writer opens w h fps out_path ;;
           modify (set_writer (Some wr)) ;;
           modify (set_target_size (Some (w, h)))
       | Some _ => ret tt
       end) ;;
      s <- get ;;
      frame_bgr <-
        (match target_size s with
         | Some sz =>
             if negb (size_eqb (cols frame_bgr, rows frame_bgr) sz)
             then cv2_resize frame_bgr sz INTER_AREA
             else ret frame_bgr
         | None => raise Cv2Error
         end) ;;
      wr <- of_option (writer s) AttributeError ;;
      emit (EvWrite wr frame_bgr).

End Recorder.

(* ===================================================================== *)
(** ** Runs of the application, and what the log says *)
(* ===================================================================== *)

Module Session.
Import PyFloat Pathlib Cv2 Recorder.

(** What can happen to the widget: the two buttons, the window being
    closed, a timer tick, and the user changing one of the three
    controls.  The spin box keeps its value inside [setRange(1, 60)]. *)
Inductive action :=
| Start (chosen : string)
| Stop (release_raises : bool)
| Close (release_raises : bool)
| Tick (pix : QPixmap) (opens : bool)
| SetFps (v : Z)
| SetScale (i : scale_item)
| SetKeepRatio (b : bool).

Definition slot (a : action) : M unit :=
  match a with
  | Start chosen => _start_recording chosen
  | Stop r => _stop_recording r
  | Close r => closeEvent r
  | Tick pix opens => _on_tick pix opens
  | SetFps v => modify (set_fps_box (Z.max 1 (Z.min 60 v)))
  | SetScale i => modify (set_scale_box i)
  | SetKeepRatio b => modify (set_keep_ratio b)
  end.

(** An exception that escapes a slot leaves the widget as the slot left
    it.  PyQt then ends the process, unless an exception hook is installed
    (the program installs none); [run] goes on from the state the slot
    left, so that what holds of every run holds of the runs that end at
    their first exception. *)
Definition exec (a : action) (w : world) : world := snd (slot a w).

Definition run (acts : list action) (w : world) : world :=
  fold_left (fun w a => exec a w) acts w.

(** Inside one recording session: ticks and changes of the controls. *)
Definition in_session (a : action) : bool :=
  match a with
  | Tick _ _ | SetFps _ | SetScale _ | SetKeepRatio _ => true
  | Start _ | Stop _ | Close _ => false
  end.

Definition is_tick (a : action) : bool :=
  match a with Tick _ _ => true | _ => false end.

(** The frames handed to [writer.write], in order. *)
Definition written (l : list event) : list ndarray :=
  flat_map (fun e => match e with EvWrite _ f => [f] | _ => [] end) l.

(** The writers constructed, in order. *)
Definition open_calls (l : list event) : list VideoWriter :=
  flat_map (fun e => match e with EvOpen v => [v] | _ => [] end) l.

(** (width, height) of a buffer. *)
Definition geometry (a : ndarray) : Z * Z := (cols a, rows a).

(** The last step before the write: a buffer whose size is not [g] is
    resized to [g]. *)
Definition fit (g : Z * Z) (c : ndarray) : ndarray :=
  if size_eqb (geometry c) g then c else Resize c g INTER_AREA.

(** Whether that step goes through: the sizes agree, or the resize is
    handed a size it accepts. *)
Definition fits (g : Z * Z) (c : ndarray) : bool :=
  (size_eqb (geometry c) g || nonempty g)%bool.

(** The scale factors as exact fractions. *)
Definition scale_ratio (i : scale_item) : Q :=
  match i with
  | Original => 1
  | Half => 1 # 2
  | Third => 1 # 3
  | Quarter => 1 # 4
  end.

Definition scaled (n : Z) (i : scale_item) : Z :=
  Qfloor (inject_Z n * scale_ratio i).

(** The buffer the conversion is expected to produce for a grab of
    [width] x [height] pixels under scale entry [i]. *)
Definition converted (width height : Z) (i : scale_item) : ndarray :=
  match i with
  | Original => CvtColor (FromBuffer height width) COLOR_BGRA2BGR
  | _ => CvtColor (Resize (FromBuffer height width)
                          (scaled width i, scaled height i) INTER_AREA)
                  COLOR_BGRA2BGR
  end.

(** The denominator of a scale entry. *)
Definition scale_den (i : scale_item) : Z :=
  match i with Original => 1 | Half => 2 | Third => 3 | Quarter => 4 end.

(** The grabs the conversion accepts under scale entry [i]: each side has
    at least as many pixels as the denominator of the scale, so that the
    image is not null and no side of the scaled size is zero; and each side
    is below 2^53, where an integer is a double exactly. *)
Definition convertible (i : scale_item) (pix : QPixmap) : Prop :=
  scale_den i <= pix_width pix < 2 ^ 53
  /\ scale_den i <= pix_height pix < 2 ^ 53.

(** Every tick of [acts] grabs an image that is convertible under the
    scale entry in force when it fires; [i] is the entry at the start. *)
Fixpoint grabs_fit (i : scale_item) (acts : list action) : Prop :=
  match acts with
  | [] => True
  | Tick pix _ :: rest => convertible i pix /\ grabs_fit i rest
  | SetScale j :: rest => grabs_fit j rest
  | _ :: rest => grabs_fit i rest
  end.

(** The buffers the conversion is expected to produce for the ticks of
    [acts], in order, each under the scale entry in force when it fires. *)
Fixpoint session_frames (i : scale_item) (acts : list action) : list ndarray :=
  match acts with
  | [] => []
  | Tick pix _ :: rest =>
      converted (pix_width pix) (pix_height pix) i :: session_frames i rest
  | SetScale j :: rest => session_frames j rest
  | _ :: rest => session_frames i rest
  end.

(** The world a tick has produced when it reaches the recording branch. *)
Definition after_preview (w : world) : world :=
  {| self := self w;
     log := log w ++ [EvGrab; EvPreview (keep_ratio (self w))] |}.

Definition writer_for (s : ScreenRecorder) (p : Path) (c : ndarray) (opens : bool)
  : VideoWriter :=
  {| vw_filename := p; vw_fourcc := fourcc_of_path p; vw_fps := fps_box s;
     vw_frameSize := geometry c; vw_isOpened := opens |}.

Definition record_frame (c : ndarray) (opens : bool) (w : world) : result unit * world :=
  let s := self w in
  match writer s with
  | None =>
      match target_path s with
      | None => (Exc AttributeError, w)
      | Some p =>
          let vw := writer_for s p c opens in
          if opens
          then (Ret tt,
                {| self := set_target_size (Some (geometry c)) (set_writer (Some vw) s);
                   log := log w ++ [EvOpen vw; EvWrite vw c] |})
          else (Exc (RuntimeError "VideoWriter cannot be opened"),
                {| self := s; log := log w ++ [EvOpen vw] |})
      end
  | Some vw =>
      match target_size s with
      | None => (Exc Cv2Error, w)
      | Some g =>
          if fits g c
          then (Ret tt, {| self := s; log := log w ++ [EvWrite vw (fit g c)] |})
          else (Exc Cv2Error, w)
      end
  end.

(** The widget after [_stop_recording] has run in a recording state. *)
Definition stopped (s : ScreenRecorder) : ScreenRecorder :=
  {| timer := {| timer_active := false; timer_interval := timer_interval (timer s) |};
     recording := false; screen := screen s;
     last_frame_time := last_frame_time s; writer := None;
     target_path := None; target_size := None;
     btn_start_enabled := true; btn_stop_enabled := false;
     fps_box := fps_box s; scale_box := scale_box s; keep_ratio := keep_ratio s |}.

(** The widget after [_start_recording] has armed the timer. *)
Definition started (s : ScreenRecorder) (p : Path) (interval_ms : Z) : ScreenRecorder :=
  {| timer := {| timer_active := true; timer_interval := interval_ms |};
     recording := true; screen := screen s;
     last_frame_time := f_0_0; writer := writer s;
     target_path := Some p; target_size := target_size s;
     btn_start_enabled := false; btn_stop_enabled := true;
     fps_box := fps_box s; scale_box := scale_box s; keep_ratio := keep_ratio s |}.

Definition release_events (s : ScreenRecorder) : list event :=
  match writer s with Some vw => [EvRelease vw] | None => [] end.

(** What holds of the fields in every state the application can be in. *)
Definition consistent (s : ScreenRecorder) : Prop :=
  1 <= fps_box s <= 60 /\
  (if recording s
   then timer_active (timer s) = true
   else timer_active (timer s) = false /\ writer s = None /\
        target_path s = None /\ target_size s = None) /\
  match writer s with
  | Some vw => target_size s = Some (vw_frameSize vw) /\ vw_isOpened vw = true
  | None => target_size s = None
  end.

(** [c] is what the conversion returned for a pixmap grabbed by one of the
    ticks in [acts]. *)
Definition converts_to (acts : list action) (c : ndarray) : Prop :=
  exists pix opens w, In (Tick pix opens) acts /\ convert pix w = (Ret c, w).

(** The events of a session in which a frame was recorded: nothing is
    written and no writer opens in [pre]; then one writer is constructed,
    opens, and receives [f0]; no writer is constructed in [post]. *)
Definition opened_once (evs : list event) (vw : VideoWriter) (f0 : ndarray) : Prop :=
  exists pre post,
    evs = pre ++ EvOpen vw :: EvWrite vw f0 :: post
    /\ written pre = []
    /\ Forall (fun v => vw_isOpened v = false) (open_calls pre)
    /\ open_calls post = []
    /\ vw_isOpened vw = true.

(** One tick, as far as the session statements need it. *)
Inductive tick_outcome (pix : QPixmap) (w w' : world) : Prop :=
| tick_silent (evs : list event) :
    self w' = self w -> log w' = log w ++ evs ->
    written evs = [] ->
    match writer (self w) with
    | Some _ => open_calls evs = []
    | None => Forall (fun v => vw_isOpened v = false) (open_calls evs)
    end ->
    tick_outcome pix w w'
| tick_first (c : ndarray) (vw : VideoWriter) :
    writer (self w) = None ->
    convert pix (after_preview w) = (Ret c, after_preview w) ->
    self w' = set_target_size (Some (geometry c)) (set_writer (Some vw) (self w)) ->
    vw_frameSize vw = geometry c -> vw_isOpened vw = true ->
    target_path (self w) = Some (vw_filename vw) ->
    vw_fps vw = fps_box (self w) ->
    log w' = log w ++ [EvGrab; EvPreview (keep_ratio (self w));
                       EvOpen vw; EvWrite vw c] ->
    tick_outcome pix w w'
| tick_next (c : ndarray) (vw : VideoWriter) (g : Z * Z) (evs : list event) :
    writer (self w) = Some vw -> target_size (self w) = Some g ->
    convert pix (after_preview w) = (Ret c, after_preview w) ->
    fits g c = true ->
    self w' = self w -> log w' = log w ++ evs ->
    written evs = [fit g c] -> open_calls evs = [] ->
    tick_outcome pix w w'.

(** A recording widget and a full-HD grab, used to instantiate the
    statements below. *)
Definition w_recording : world := exec (Start "out.mp4") (init true).
Definition pix_1080p : QPixmap :=
  {| pix_width := 1920; pix_height := 1080; pix_dpr_is_one := true |}.

End Session.

(* ===================================================================== *)
(** ** What the log accounts for *)
(* ===================================================================== *)

Module Ledger.
Import PyFloat Pathlib Cv2 Recorder Session.

(** The writers released, in order. *)
Definition released (l : list event) : list VideoWriter :=
  flat_map (fun e => match e with EvRelease v => [v] | _ => [] end) l.

(** The writers that were constructed and reported open, in order. *)
Definition opened_ok (l : list event) : list VideoWriter :=
  filter vw_isOpened (open_calls l).

(** The writer the widget holds, as a list of length at most one. *)
Definition held (s : ScreenRecorder) : list VideoWriter :=
  match writer s with Some v => [v] | None => [] end.

(** The calls of [writer.write]: which writer, which frame. *)
Definition writes (l : list event) : list (VideoWriter * ndarray) :=
  flat_map (fun e => match e with EvWrite v f => [(v, f)] | _ => [] end) l.

(** Events that only show the screen or close the window. *)
Definition quiet (e : event) : bool :=
  match e with
  | EvGrab | EvPreview _ | EvSuperClose => true
  | _ => false
  end.

(** Events that touch the screen or the encoder. *)
Definition captures (e : event) : bool :=
  match e with
  | EvGrab | EvPreview _ | EvOpen _ | EvWrite _ _ => true
  | _ => false
  end.

Definition is_start (a : action) : bool :=
  match a with Start _ => true | _ => false end.

(** The buttons, the timer and the flag say the same thing. *)
Definition ui_follows (s : ScreenRecorder) : Prop :=
  btn_start_enabled s = negb (recording s)
  /\ btn_stop_enabled s = recording s
  /\ timer_active (timer s) = recording s
  /\ last_frame_time s = f_0_0
  /\ (recording s = true -> 16 <= timer_interval (timer s) <= 1000).

(** One tick, with the world it leaves. *)
Inductive tick_step (pix : QPixmap) (opens : bool) (w : world) : world -> Prop :=
| step_no_screen :
    screen (self w) = false ->
    tick_step pix opens w w
| step_idle :
    screen (self w) = true -> recording (self w) = false ->
    tick_step pix opens w (after_preview w)
| step_convert_raises (e : exn) :
    screen (self w) = true -> recording (self w) = true ->
    convert pix (after_preview w) = (Exc e, after_preview w) ->
    tick_step pix opens w (after_preview w)
| step_no_path (c : ndarray) :
    screen (self w) = true -> recording (self w) = true ->
    convert pix (after_preview w) = (Ret c, after_preview w) ->
    writer (self w) = None -> target_path (self w) = None ->
    tick_step pix opens w (after_preview w)
| step_open_fails (c : ndarray) (p : Path) :
    screen (self w) = true -> recording (self w) = true ->
    convert pix (after_preview w) = (Ret c, after_preview w) ->
    writer (self w) = None -> target_path (self w) = Some p ->
    opens = false ->
    tick_step pix opens w
      {| self := self w;
         log := log w ++ [EvGrab; EvPreview (keep_ratio (self w));
                          EvOpen (writer_for (self w) p c false)] |}
| step_open_writes (c : ndarray) (p : Path) :
    screen (self w) = true -> recording (self w) = true ->
    convert pix (after_preview w) = (Ret c, after_preview w) ->
    writer (self w) = None -> target_path (self w) = Some p ->
    opens = true ->
    tick_step pix opens w
      {| self := set_target_size (Some (geometry c))
                   (set_writer (Some (writer_for (self w) p c true)) (self w));
         log := log w ++ [EvGrab; EvPreview (keep_ratio (self w));
                          EvOpen (writer_for (self w) p c true);
                          EvWrite (writer_for (self w) p c true) c] |}
| step_no_size (c : ndarray) (vw : VideoWriter) :
    screen (self w) = true -> recording (self w) = true ->
    convert pix (after_preview w) = (Ret c, after_preview w) ->
    writer (self w) = Some vw -> target_size (self w) = None ->
    tick_step pix opens w (after_preview w)
| step_resize_raises (c : ndarray) (vw : VideoWriter) (g : Z * Z) :
    screen (self w) = true -> recording (self w) = true ->
    convert pix (after_preview w) = (Ret c, after_preview w) ->
    writer (self w) = Some vw -> target_size (self w) = Some g ->
    fits g c = false ->
    tick_step pix opens w (after_preview w)
| step_writes (c : ndarray) (vw : VideoWriter) (g : Z * Z) :
    screen (self w) = true -> recording (self w) = true ->
    convert pix (after_preview w) = (Ret c, after_preview w) ->
    writer (self w) = Some vw -> target_size (self w) = Some g ->
    fits g c = true ->
    tick_step pix opens w
      {| self := self w;
         log := log w ++ [EvGrab; EvPreview (keep_ratio (self w));
                          EvWrite vw (fit g c)] |}.

(** A written frame suits the writer it is handed to. *)
Definition write_ok (vf : VideoWriter * ndarray) : Prop :=
  vw_isOpened (fst vf) = true
  /\ geometry (snd vf) = vw_frameSize (fst vf)
  /\ channels (snd vf) = 3.

(** Every writer that opened has been released or is the one held. *)
Definition ledger (w : world) : Prop :=
  opened_ok (log w) = released (log w) ++ held (self w).

(** What every state reached from [__init__] satisfies. *)
Definition sound (w : world) : Prop :=
  consistent (self w) /\ ui_follows (self w) /\ ledger w
  /\ Forall write_ok (writes (log w)).

End Ledger.

(* ===================================================================== *)
(** ** The captured image as bytes *)
(* ===================================================================== *)

Module Numpy.

(** A [QImage] in [Format_RGB32] together with its pixel bytes, as
    [img.bits()] exposes them once [setsize(img.byteCount())] is called
    (for an image that has a buffer). *)
Record QImageData := { qd_width : nat; qd_height : nat; qd_bits : list byte }.

(** [count] consecutive slices of [size] elements. *)
Fixpoint chunks {A : Type} (size count : nat) (l : list A) : list (list A) :=
  match count with
  | O => []
  | S k => firstn size l :: chunks size k (skipn size l)
  end.

(** The two ways [qimage_to_numpy] can fail. *)
Inductive failure :=
| NoBuffer          (* img.bits() is None: AttributeError at ptr.setsize *)
| ShapeMismatch.    (* reshape: ValueError *)

(** [flat.reshape((h, w, c))] on a one-dimensional array, rows first;
    [None] stands for the [ValueError] raised when the sizes disagree. *)
Definition reshape3 {A : Type} (h w c : nat) (flat : list A)
  : option (list (list (list A))) :=
  if Nat.eqb (List.length flat) (h * w * c)
  then Some (chunks w h (chunks c (h * w) flat))
  else None.

(** [qimage_to_numpy] on the bytes.  An image with a side of zero pixels
    is a null image: [img.bits()] is [None] and [ptr.setsize] raises. *)
Definition qimage_to_numpy_data (img : QImageData)
  : failure + list (list (list byte)) :=
  let width := qd_width img in
  let height := qd_height img in
  if (Nat.eqb width 0 || Nat.eqb height 0)%bool then inl NoBuffer
  else
    let ptr := qd_bits img in
    match reshape3 height width 4 ptr with
    | Some arr => inr arr
    | None => inl ShapeMismatch
    end.

(** [arr[y, x, k]]. *)
Definition item {A : Type} (arr : list (list (list A))) (y x k : nat) : option A :=
  match nth_error arr y with
  | Some row => match nth_error row x with
                | Some px => nth_error px k
                | None => None
                end
  | None => None
  end.

End Numpy.

Import PyFloat Pathlib Cv2 Recorder Session.
Import Ledger Numpy.

(* ===================================================================== *)
(** ** Rounding: what [SpecFloat] computes *)
(* ===================================================================== *)

Section Rounding.

Lemma iter_pos_nat {A : Type} (f : A -> A) (p : positive) :
  forall x, iter_pos f p x = Nat.iter (Pos.to_nat p) f x.
Proof.
  induction p as [p IH | p IH | ]; intro x; simpl iter_pos.
  - rewrite !IH, Pos2Nat.inj_xI.
    replace (S (2 * Pos.to_nat p)) with (Pos.to_nat p + (Pos.to_nat p + 1))%nat by lia.
    rewrite !Nat.iter_add. reflexivity.
  - rewrite !IH, Pos2Nat.inj_xO.
    replace (2 * Pos.to_nat p)%nat with (Pos.to_nat p + Pos.to_nat p)%nat by lia.
    rewrite Nat.iter_add. reflexivity.
  - reflexivity.
Qed.

Lemma shr_1_nonneg (m : Z) (r s : bool) :
  0 <= m ->
  shr_1 (Build_shr_record m r s) = Build_shr_record (m / 2) (Z.odd m) (r || s).
Proof.
  intro Hm. rewrite <- Z.div2_div.
  destruct m as [ | [p | p | ] | p ]; try reflexivity; lia.
Qed.

Lemma iter_shr_1 (m : Z) (k : nat) :
  0 <= m ->
  Nat.iter (S k) shr_1 (Build_shr_record m false false) =
  Build_shr_record (m / 2 ^ (Z.of_nat k + 1))
                   (Z.odd (m / 2 ^ Z.of_nat k))
                   (negb (m mod 2 ^ Z.of_nat k =? 0)).
Proof.
  intro Hm. induction k as [ | k IH].
  - change (Nat.iter 1 shr_1 ?x) with (shr_1 x). rewrite shr_1_nonneg by assumption.
    simpl Z.of_nat. rewrite Z.pow_0_r, Z.div_1_r, Z.mod_1_r. reflexivity.
  - change (Nat.iter (S (S k)) shr_1 ?x) with (shr_1 (Nat.iter (S k) shr_1 x)).
    rewrite IH.
    assert (Hp : 0 < 2 ^ Z.of_nat k) by (apply Z.pow_pos_nonneg; lia).
    rewrite shr_1_nonneg by (apply Z.div_pos; [assumption | apply Z.pow_pos_nonneg; lia]).
    replace (Z.of_nat (S k)) with (Z.of_nat k + 1) by lia.
    f_equal.
    + rewrite Z.div_div by lia.
      replace (Z.of_nat k + 1 + 1) with (Z.succ (Z.of_nat k + 1)) by lia.
      rewrite Z.pow_succ_r by lia. f_equal. lia.
    + replace (2 ^ (Z.of_nat k + 1)) with (2 ^ Z.of_nat k * 2)
        by (rewrite Z.pow_add_r by lia; reflexivity).
      rewrite Z.rem_mul_r by lia.
      set (q := m / 2 ^ Z.of_nat k).
      assert (Hr : 0 <= m mod 2 ^ Z.of_nat k < 2 ^ Z.of_nat k)
        by (apply Z.mod_pos_bound; assumption).
      rewrite (Zmod_odd q).
      destruct (Z.odd q); simpl.
      * symmetry. apply negb_true_iff, Z.eqb_neq. lia.
      * rewrite Z.mul_0_r, Z.add_0_r. reflexivity.
Qed.

Lemma shr_round (m : Z) (p : positive) :
  0 <= m ->
  let mrs := iter_pos shr_1 p (Build_shr_record m false false) in
  round_nearest_even (shr_m mrs) (loc_of_shr_record mrs) = rne m (2 ^ Zpos p).
Proof.
  intros Hm mrs. subst mrs. rewrite iter_pos_nat.
  destruct (Pos2Nat.is_succ p) as [k Hk]. rewrite Hk.
  rewrite iter_shr_1 by assumption.
  assert (Hpk : Zpos p = Z.of_nat k + 1) by lia.
  rewrite Hpk. unfold rne.
  assert (Hp : 0 < 2 ^ Z.of_nat k) by (apply Z.pow_pos_nonneg; lia).
  replace (2 ^ (Z.of_nat k + 1)) with (2 ^ Z.of_nat k * 2)
    by (rewrite Z.pow_add_r by lia; reflexivity).
  rewrite (Z.rem_mul_r m) by lia.
  set (q := m / 2 ^ Z.of_nat k).
  assert (Hr : 0 <= m mod 2 ^ Z.of_nat k < 2 ^ Z.of_nat k)
    by (apply Z.mod_pos_bound; assumption).
  rewrite (Zmod_odd q).
  destruct (Z.odd q); destruct (Z.eqb_spec (m mod 2 ^ Z.of_nat k) 0) as [E | E];
    cbn [negb loc_of_shr_record round_nearest_even shr_m shr_r shr_s];
    match goal with
    | |- context [?a ?= ?b] => destruct (Z.compare_spec a b)
    end; try lia; reflexivity.
Qed.

Lemma digits2_pos_size (p : positive) : digits2_pos p = Pos.size p.
Proof. induction p; simpl; congruence. Qed.

Lemma Zdigits2_spec (p : positive) :
  2 ^ (Zdigits2 (Zpos p) - 1) <= Zpos p < 2 ^ Zdigits2 (Zpos p).
Proof.
  simpl Zdigits2. rewrite digits2_pos_size.
  pose proof (Pos.size_gt p) as Hgt. pose proof (Pos.size_le p) as Hle.
  apply Pos2Z.pos_lt_pos in Hgt. apply Pos2Z.pos_le_pos in Hle.
  rewrite Pos2Z.inj_pow in Hgt, Hle.
  change (Zpos 2) with 2 in *.
  replace (2 ^ Zpos (Pos.size p)) with (2 * 2 ^ (Zpos (Pos.size p) - 1)) in Hle
    by (rewrite <- Z.pow_succ_r by lia; f_equal; lia).
  lia.
Qed.

Lemma Zdigits2_bounds (p : positive) (d : Z) :
  2 ^ (d - 1) <= Zpos p < 2 ^ d -> Zdigits2 (Zpos p) = d.
Proof.
  intros [Hlo Hhi]. pose proof (Zdigits2_spec p) as [Slo Shi].
  set (s := Zdigits2 (Zpos p)) in *.
  assert (Hs : 0 < s) by (subst s; simpl; lia).
  assert (Hd : 0 < d).
  { destruct (Z_lt_le_dec 0 d) as [ | Hneg]; [assumption | exfalso].
    assert (2 ^ d <= 1).
    { destruct (Z.eq_dec d 0) as [-> | ]; [simpl; lia | ].
      rewrite Z.pow_neg_r by lia. lia. }
    lia. }
  destruct (Z.lt_trichotomy s d) as [Hlt | [Heq | Hgt]]; [exfalso | assumption | exfalso].
  - assert (2 ^ s <= 2 ^ (d - 1)) by (apply Z.pow_le_mono_r; lia). lia.
  - assert (2 ^ d <= 2 ^ (s - 1)) by (apply Z.pow_le_mono_r; lia). lia.
Qed.

Lemma round_aux_exact (s : bool) (m : positive) (e : Z) :
  Zdigits2 (Zpos m) = 53 -> -1074 <= e <= 971 ->
  binary_round_aux prec emax s (Zpos m) e loc_Exact = S754_finite s m e.
Proof.
  intros Hd He.
  assert (Hf : fexp prec emax (Zdigits2 (Zpos m) + e) - e = 0).
  { rewrite Hd. unfold fexp, emin, prec, emax. lia. }
  unfold binary_round_aux, shr_fexp.
  rewrite Hf. cbn [shr shr_record_of_loc shr_m loc_of_shr_record round_nearest_even].
  rewrite Hf. cbn [shr shr_record_of_loc shr_m].
  unfold prec, emax.
  replace (e <=? 1024 - 53) with true by (symmetry; apply Z.leb_le; lia).
  reflexivity.
Qed.

Lemma rne_bounds (m B : Z) :
  0 < B -> m / B <= rne m B <= m / B + 1.
Proof.
  intro HB. unfold rne.
  destruct (2 * (m mod B) ?= B); [destruct (Z.even (m / B)) | | ]; lia.
Qed.

Lemma binary_round_aux_split (sx : bool) (mx ex : Z) (lx : location) :
  binary_round_aux prec emax sx mx ex lx =
  round_finish sx
    (round_nearest_even (shr_m (fst (shr_fexp prec emax mx ex lx)))
                        (loc_of_shr_record (fst (shr_fexp prec emax mx ex lx))))
    (snd (shr_fexp prec emax mx ex lx)).
Proof.
  unfold binary_round_aux, round_finish.
  destruct (shr_fexp prec emax mx ex lx) as [mrs' e']. reflexivity.
Qed.

Lemma round_finish_int (q e : Z) :
  2 ^ 52 <= q <= 2 ^ 53 -> -1074 <= e < 0 ->
  py_int (round_finish false q e) = Some (q / 2 ^ (- e)).
Proof.
  intros Hq He. unfold round_finish, shr_fexp.
  destruct (Z.eq_dec q (2 ^ 53)) as [Htop | Htop].
  - rewrite Htop.
    assert (Hf2 : fexp prec emax (Zdigits2 (2 ^ 53) + e) - e = 1).
    { unfold fexp, emin, prec, emax. change (Zdigits2 (2 ^ 53)) with 54. lia. }
    rewrite Hf2. cbn [shr shr_record_of_loc iter_pos].
    change (shr_1 {| shr_m := 2 ^ 53; shr_r := false; shr_s := false |})
      with {| shr_m := 2 ^ 52; shr_r := false; shr_s := false |}.
    cbn [shr_m]. change (2 ^ 52) with (Zpos (2 ^ 52)).
    unfold prec, emax.
    replace (e + 1 <=? 1024 - 53) with true by (symmetry; apply Z.leb_le; lia).
    unfold py_int. f_equal.
    destruct (e + 1) as [ | pe | pe ] eqn:Ee; try lia.
    + replace (- e) with 1 by lia. reflexivity.
    + rewrite Z.shiftr_div_pow2 by lia.
      replace (- e) with (Zpos pe + 1) by lia.
      rewrite Z.pow_add_r by lia. change (2 ^ 1) with 2.
      change (2 ^ 53) with (Zpos (2 ^ 52) * 2).
      rewrite Z.div_mul_cancel_r by lia. reflexivity.
  - destruct q as [ | pq | pq ]; try lia.
    assert (Hf2 : fexp prec emax (Zdigits2 (Zpos pq) + e) - e = 0).
    { rewrite (Zdigits2_bounds pq 53) by (simpl; lia).
      unfold fexp, emin, prec, emax. lia. }
    rewrite Hf2. cbn [shr shr_record_of_loc shr_m].
    unfold prec, emax.
    replace (e <=? 1024 - 53) with true by (symmetry; apply Z.leb_le; lia).
    unfold py_int. f_equal.
    destruct e as [ | pe | pe ]; try lia.
    rewrite Z.shiftr_div_pow2 by lia. reflexivity.
Qed.

Lemma round_aux_shift (m : positive) (e n : Z) :
  Zdigits2 (Zpos m) = 53 + n -> 1 <= n -> -1074 <= e + n -> e + n < 0 ->
  py_int (binary_round_aux prec emax false (Zpos m) e loc_Exact)
  = Some (rne (Zpos m) (2 ^ n) / 2 ^ (- (e + n))).
Proof.
  intros Hd Hn Hlo Hhi.
  pose proof (Zdigits2_spec m) as Hm. rewrite Hd in Hm.
  replace (53 + n - 1) with (n + 52) in Hm by lia.
  replace (53 + n) with (n + 53) in Hm by lia.
  rewrite !Z.pow_add_r in Hm by lia.
  assert (HB : 0 < 2 ^ n) by (apply Z.pow_pos_nonneg; lia).
  assert (Hq : 2 ^ 52 <= Zpos m / 2 ^ n < 2 ^ 53).
  { split; [apply Z.div_le_lower_bound | apply Z.div_lt_upper_bound]; lia. }
  pose proof (rne_bounds (Zpos m) (2 ^ n) HB) as Hr.
  assert (Hf : fexp prec emax (Zdigits2 (Zpos m) + e) - e = n).
  { rewrite Hd. unfold fexp, emin, prec, emax. lia. }
  rewrite binary_round_aux_split. unfold shr_fexp. rewrite Hf.
  destruct n as [ | pn | pn ]; try lia.
  cbn [shr shr_record_of_loc fst snd].
  rewrite (shr_round (Zpos m) pn) by lia.
  apply round_finish_int; lia.
Qed.

(** Rounding a quotient whose location in its unit interval is known only
    through [l]: the mantissa moves by at most one unit. *)
Lemma round_aux_loc (q e sh : Z) (l : location) :
  0 < q -> Zdigits2 q = 53 + sh -> sh = 0 \/ sh = 1 ->
  -1074 <= e + sh -> e + sh < 0 ->
  exists q', q / 2 ^ sh <= q' <= q / 2 ^ sh + 1 /\
    py_int (binary_round_aux prec emax false q e l) = Some (q' / 2 ^ (- (e + sh))).
Proof.
  intros Hq Hd Hsh Hlo Hhi.
  destruct q as [ | m | m ]; try lia.
  pose proof (Zdigits2_spec m) as Hm. rewrite Hd in Hm.
  assert (Hf : fexp prec emax (Zdigits2 (Zpos m) + e) - e = sh).
  { rewrite Hd. unfold fexp, emin, prec, emax. lia. }
  rewrite binary_round_aux_split. unfold shr_fexp. rewrite Hf.
  destruct Hsh as [-> | ->].
  - cbn [shr fst snd]. change (2 ^ 0) with 1. rewrite Z.div_1_r.
    replace (53 + 0 - 1) with 52 in Hm by lia. replace (53 + 0) with 53 in Hm by lia.
    set (q' := round_nearest_even _ _).
    assert (Hq' : Zpos m <= q' <= Zpos m + 1).
    { subst q'. destruct l as [ | [ | | ]];
        cbn [round_nearest_even loc_of_shr_record shr_record_of_loc shr_m];
        try destruct (Z.even (Zpos m)); lia. }
    exists q'. split; [assumption | ].
    rewrite Z.add_0_r in *. apply round_finish_int; lia.
  - cbn [shr fst snd iter_pos]. change (2 ^ 1) with 2.
    replace (53 + 1 - 1) with 53 in Hm by lia. replace (53 + 1) with 54 in Hm by lia.
    assert (Hh : 2 ^ 52 <= Zpos m / 2 < 2 ^ 53).
    { split; [apply Z.div_le_lower_bound | apply Z.div_lt_upper_bound]; lia. }
    assert (E1 : exists r s, shr_1 (shr_record_of_loc (Zpos m) l)
                             = Build_shr_record (Zpos m / 2) r s).
    { destruct l as [ | [ | | ]]; cbn [shr_record_of_loc];
        rewrite shr_1_nonneg by lia; eauto. }
    destruct E1 as (r & s & E1). rewrite E1. cbn [shr_m].
    set (q' := round_nearest_even _ _).
    assert (Hq' : Zpos m / 2 <= q' <= Zpos m / 2 + 1).
    { subst q'. destruct r, s;
        cbn [round_nearest_even loc_of_shr_record shr_m];
        try destruct (Z.even (Zpos m / 2)); lia. }
    exists q'. split; [assumption | ].
    apply round_finish_int; lia.
Qed.

Lemma iter_xO_pow (p : positive) (k : positive) :
  Zpos (Pos.iter xO p k) = Zpos p * 2 ^ Zpos k.
Proof.
  change (Pos.iter xO p k) with (shift_pos k p).
  rewrite shift_pos_correct, Zpower_pos_nat, Zpower_nat_Z, positive_nat_Z. lia.
Qed.

Lemma norm_shift_bounds (n : Z) :
  0 < n < 2 ^ 53 ->
  0 <= norm_shift n /\ 2 ^ 52 <= n * 2 ^ norm_shift n < 2 ^ 53.
Proof.
  intros [Hpos Hlt]. destruct n as [ | p | p ]; try lia.
  unfold norm_shift. pose proof (Zdigits2_spec p) as [Lo Hi].
  set (d := Zdigits2 (Zpos p)) in *.
  assert (Hd1 : 0 < d) by (subst d; simpl; lia).
  assert (Hd : d <= 53).
  { destruct (Z_le_gt_dec d 53) as [ | Hgt]; [assumption | exfalso].
    assert (2 ^ 53 <= 2 ^ (d - 1)) by (apply Z.pow_le_mono_r; lia). lia. }
  split; [lia | ].
  assert (Hk : 0 < 2 ^ (53 - d)) by (apply Z.pow_pos_nonneg; lia).
  replace (2 ^ 52) with (2 ^ (d - 1) * 2 ^ (53 - d))
    by (rewrite <- Z.pow_add_r by lia; f_equal; lia).
  replace (2 ^ 53) with (2 ^ d * 2 ^ (53 - d))
    by (rewrite <- Z.pow_add_r by lia; f_equal; lia).
  split; [apply Z.mul_le_mono_nonneg_r | apply Z.mul_lt_mono_pos_r]; lia.
Qed.

Lemma norm_shift_le (n : Z) : 0 < n -> norm_shift n <= 52.
Proof.
  intro Hn. destruct n as [ | p | p ]; try lia.
  unfold norm_shift. change (Zdigits2 (Zpos p)) with (Zpos (digits2_pos p)). lia.
Qed.

Lemma float_of_int_pos (n : Z) :
  0 < n < 2 ^ 53 ->
  float_of_int n
  = S754_finite false (Z.to_pos (n * 2 ^ norm_shift n)) (- norm_shift n).
Proof.
  intro Hn. pose proof (norm_shift_bounds n Hn) as [Hk Hb].
  destruct n as [ | p | p ]; try lia.
  unfold float_of_int, binary_normalize, binary_round, shl_align.
  unfold norm_shift in *. set (d := Zdigits2 (Zpos p)) in *.
  change (Zpos (digits2_pos p)) with d.
  assert (Hd1 : 0 < d) by (subst d; simpl; lia).
  replace (fexp prec emax (d + 0) - 0) with (d - 53)
    by (unfold fexp, emin, prec, emax; lia).
  replace (fexp prec emax (d + 0)) with (d - 53)
    by (unfold fexp, emin, prec, emax; lia).
  destruct (d - 53) as [ | x | x ] eqn:Ex; try lia.
  - replace (53 - d) with 0 in * by lia.
    rewrite Z.pow_0_r, Z.mul_1_r in *. 
    rewrite round_aux_exact; [reflexivity | apply Zdigits2_bounds; lia | lia].
  - replace (53 - d) with (Zpos x) in * by lia.
    rewrite round_aux_exact.
    + f_equal. apply Pos2Z.inj. rewrite iter_xO_pow, Z2Pos.id by lia. reflexivity.
    + apply Zdigits2_bounds. rewrite iter_xO_pow. lia.
    + lia.
Qed.

Lemma py_int_mul (n : Z) (My : positive) (ey nn : Z) :
  0 < n < 2 ^ 53 ->
  let k := norm_shift n in
  let m := n * 2 ^ k * Zpos My in
  2 ^ (52 + nn) <= m < 2 ^ (53 + nn) ->
  1 <= nn -> -1074 <= ey - k + nn -> ey - k + nn < 0 ->
  py_int (py_mul_int_float n (S754_finite false My ey))
  = Some (rne m (2 ^ nn) / 2 ^ (k - ey - nn)).
Proof.
  intros Hn k m Hm Hnn Hlo Hhi.
  pose proof (norm_shift_bounds n Hn) as [Hk Hb]. fold k in Hk, Hb.
  unfold py_mul_int_float. rewrite (float_of_int_pos n Hn). fold k.
  cbn [SFmul xorb].
  assert (Em : Zpos (Z.to_pos (n * 2 ^ k) * My) = m).
  { rewrite Pos2Z.inj_mul, Z2Pos.id by lia. reflexivity. }
  rewrite (round_aux_shift _ (- k + ey) nn).
  - rewrite Em. do 3 f_equal. lia.
  - apply Zdigits2_bounds. rewrite Em.
    replace (53 + nn - 1) with (52 + nn) by lia. assumption.
  - assumption.
  - lia.
  - lia.
Qed.

End Rounding.

(* ===================================================================== *)
(** ** The three downscale factors *)
(* ===================================================================== *)

Section Scaling.

Lemma rne_exact (a B : Z) : 0 < B -> rne (a * B) B = a.
Proof.
  intro HB. unfold rne. rewrite Z.mod_mul, Z.div_mul by lia.
  replace (2 * 0 ?= B) with Lt by (symmetry; apply Z.compare_lt_iff; lia).
  reflexivity.
Qed.

Lemma rne_half_ulp (m B : Z) : 0 < B -> 2 * (B * rne m B) <= 2 * m + B.
Proof.
  intro HB. unfold rne.
  pose proof (Z.div_mod m B ltac:(lia)) as E.
  pose proof (Z.mod_pos_bound m B HB) as R.
  set (q := m / B) in *. set (r := m mod B) in *.
  destruct (Z.compare_spec (2 * r) B); [destruct (Z.even q) | | ]; nia.
Qed.

Lemma rne_up (m B : Z) :
  0 < B -> B <= 2 * (m mod B) -> Z.odd (m / B) = true -> rne m B = m / B + 1.
Proof.
  intros HB Hr Ho. unfold rne.
  destruct (Z.compare_spec (2 * (m mod B)) B); try lia.
  rewrite <- Z.negb_odd, Ho. reflexivity.
Qed.

(** [3 * 6004799503160661 = 2^54 - 1]: the double nearest to one third. *)
Lemma third_core (A B C n : Z) :
  0 < A -> 0 < B <= 9007199254740992 -> 0 < C -> Z.even C = true ->
  B * C = A * 18014398509481984 ->
  0 < n -> A * n < 9007199254740992 ->
  n * A * 6004799503160661 < B * 9007199254740992 ->
  rne (n * A * 6004799503160661) B / C = n / 3.
Proof.
  intros HA HB HC Hev HBC Hn Han Hm.
  set (m := n * A * 6004799503160661) in *.
  pose proof (Z.div_mod n 3 ltac:(lia)) as En.
  pose proof (Z.mod_pos_bound n 3 ltac:(lia)) as Rn.
  set (K := n / 3) in *. set (r := n mod 3) in *.
  assert (HK : 0 <= K) by lia.
  assert (HnA : n <= A * n) by nia.
  assert (HKA : 3 * (K * A) <= 9007199254740992 * A) by nia.
  assert (HKBC : K * C * B = K * A * 18014398509481984)
    by (rewrite <- Z.mul_assoc, (Z.mul_comm C B), HBC; ring).
  assert (E3m : 3 * m = (3 * K + r) * A * 18014398509481983)
    by (subst m; rewrite En; ring).
  assert (H2 : 2 <= C).
  { destruct (Z.eq_dec C 1) as [-> | ]; [discriminate Hev | lia]. }
  assert (HBA : B <= A * 9007199254740992) by nia.
  cut (K * C <= rne m B < (K + 1) * C).
  { intro Hb. symmetry. apply Z.div_unique with (r := rne m B - K * C); lia. }
  destruct (Z.eq_dec r 0) as [Hr0 | Hr0].
  - (* n is a multiple of 3: the product falls just below K and is rounded up *)
    assert (HK1 : 1 <= K) by lia.
    set (d := K * A) in *.
    assert (Hd : 0 < d) by (subst d; nia).
    assert (Em : m = K * C * B - d) by lia.
    assert (Hd2 : 2 * d <= B).
    { destruct (Z_le_gt_dec (2 * d) B) as [ | Hgt]; [assumption | exfalso].
      assert ((B + 1) * 18014398509481983 <= 2 * d * 18014398509481983)
        by (apply Z.mul_le_mono_nonneg_r; lia).
      lia. }
    assert (Eq : m / B = K * C - 1).
    { symmetry. apply Z.div_unique with (r := B - d); [lia | ]. rewrite Em. ring. }
    assert (Er : m mod B = B - d).
    { symmetry. apply Z.mod_unique with (q := K * C - 1); [lia | ]. rewrite Em. ring. }
    rewrite rne_up; rewrite ?Eq, ?Er; try lia.
    rewrite Z.odd_sub, Z.odd_mul, <- (Z.negb_even C), Hev, andb_false_r.
    reflexivity.
  - (* otherwise the product stays strictly between K and K + 1 *)
    assert (Hr : r = 1 \/ r = 2) by lia.
    pose proof (rne_bounds m B ltac:(lia)) as [Hlo _].
    pose proof (rne_half_ulp m B ltac:(lia)) as Hhi.
    split.
    + apply Z.le_trans with (m / B); [ | assumption].
      apply Z.div_le_lower_bound; [lia | ].
      rewrite (Z.mul_comm B), HKBC. nia.
    + destruct (Z_lt_le_dec (rne m B) ((K + 1) * C)) as [ | Hge]; [assumption | exfalso].
      assert (Hmul : B * ((K + 1) * C) <= B * rne m B)
        by (apply Z.mul_le_mono_nonneg_l; lia).
      replace (B * ((K + 1) * C)) with (K * C * B + B * C) in Hmul by ring.
      rewrite HKBC, HBC in Hmul. nia.
Qed.

Lemma scaled_value (n : Z) (i : scale_item) :
  scaled n i = match i with
               | Original => n | Half => n / 2 | Third => n / 3 | Quarter => n / 4
               end.
Proof.
  unfold scaled, scale_ratio, Qfloor, Qmult, inject_Z; destruct i; simpl Qnum; simpl Qden.
  - rewrite Z.mul_1_r. apply Z.div_1_r.
  - rewrite Z.mul_1_r. reflexivity.
  - rewrite Z.mul_1_r. reflexivity.
  - rewrite Z.mul_1_r. reflexivity.
Qed.

Lemma mul_half (n : Z) :
  0 <= n < 2 ^ 53 -> py_int (py_mul_int_float n f_0_5) = Some (n / 2).
Proof.
  intros [H0 Hlt]. destruct (Z.eq_dec n 0) as [-> | Hne]; [reflexivity | ].
  assert (Hn : 0 < n < 2 ^ 53) by lia.
  pose proof (norm_shift_bounds n Hn) as [Hk Hb].
  pose proof (norm_shift_le n ltac:(lia)) as Hk'.
  change f_0_5 with (S754_finite false 4503599627370496 (-53)).
  rewrite (py_int_mul n _ _ 52 Hn); try lia.
  set (k := norm_shift n) in *.
  change (Zpos 4503599627370496) with (2 ^ 52).
  rewrite rne_exact by lia.
  replace (k - -53 - 52) with (k + 1) by lia.
  rewrite Z.pow_add_r by lia. change (2 ^ 1) with 2.
  rewrite (Z.mul_comm (2 ^ k) 2), Z.div_mul_cancel_r; [reflexivity | lia | ].
  apply Z.pow_nonzero; lia.
Qed.

Lemma mul_quarter (n : Z) :
  0 <= n < 2 ^ 53 -> py_int (py_mul_int_float n f_0_25) = Some (n / 4).
Proof.
  intros [H0 Hlt]. destruct (Z.eq_dec n 0) as [-> | Hne]; [reflexivity | ].
  assert (Hn : 0 < n < 2 ^ 53) by lia.
  pose proof (norm_shift_bounds n Hn) as [Hk Hb].
  pose proof (norm_shift_le n ltac:(lia)) as Hk'.
  change f_0_25 with (S754_finite false 4503599627370496 (-54)).
  rewrite (py_int_mul n _ _ 52 Hn); try lia.
  set (k := norm_shift n) in *.
  change (Zpos 4503599627370496) with (2 ^ 52).
  rewrite rne_exact by lia.
  replace (k - -54 - 52) with (k + 2) by lia.
  rewrite Z.pow_add_r by lia. change (2 ^ 2) with 4.
  rewrite (Z.mul_comm (2 ^ k) 4), Z.div_mul_cancel_r; [reflexivity | lia | ].
  apply Z.pow_nonzero; lia.
Qed.

Lemma mul_third (n : Z) :
  0 <= n < 2 ^ 53 -> py_int (py_mul_int_float n one_third) = Some (n / 3).
Proof.
  intros [H0 Hlt]. destruct (Z.eq_dec n 0) as [-> | Hne]; [reflexivity | ].
  assert (Hn : 0 < n < 2 ^ 53) by lia.
  pose proof (norm_shift_bounds n Hn) as [Hk Hb].
  pose proof (norm_shift_le n ltac:(lia)) as Hk'.
  change one_third with (S754_finite false 6004799503160661 (-54)).
  set (k := norm_shift n) in *.
  assert (HA : 0 < 2 ^ k) by (apply Z.pow_pos_nonneg; lia).
  set (m := n * 2 ^ k * 6004799503160661).
  assert (Hm : 2 ^ 104 <= m < 2 ^ 106).
  { subst m. change (2 ^ 104) with (2 ^ 52 * 4503599627370496).
    change (2 ^ 106) with (2 ^ 53 * 9007199254740992). nia. }
  assert (Hcore : forall nn, 52 <= nn <= 53 -> m < 2 ^ (53 + nn) ->
                  rne m (2 ^ nn) / 2 ^ (k - -54 - nn) = n / 3).
  { intros nn Hnn Hlt'. subst m.
    apply third_core with (A := 2 ^ k).
    - assumption.
    - split; [apply Z.pow_pos_nonneg; lia | ].
      change 9007199254740992 with (2 ^ 53). apply Z.pow_le_mono_r; lia.
    - apply Z.pow_pos_nonneg; lia.
    - rewrite Z.even_pow by lia. reflexivity.
    - rewrite <- Z.pow_add_r by lia.
      change 18014398509481984 with (2 ^ 54).
      rewrite <- Z.pow_add_r by lia. f_equal. lia.
    - lia.
    - change 9007199254740992 with (2 ^ 53). lia.
    - change 9007199254740992 with (2 ^ 53).
      rewrite <- Z.pow_add_r by lia. rewrite (Z.add_comm nn 53). assumption. }
  destruct (Z_lt_le_dec m (2 ^ 105)) as [Hsmall | Hbig].
  - rewrite (py_int_mul n _ _ 52 Hn); fold k; fold m;
      [ rewrite Hcore; [reflexivity | lia | assumption]
      | split; [apply Hm | assumption] | lia | lia | lia ].
  - rewrite (py_int_mul n _ _ 53 Hn); fold k; fold m;
      [ rewrite Hcore; [reflexivity | lia | apply Hm]
      | split; [assumption | apply Hm] | lia | lia | lia ].
Qed.

End Scaling.

(* ===================================================================== *)
(** ** The timer interval *)
(* ===================================================================== *)

Section Interval.

Lemma div_core (A T S f q' : Z) :
  0 < A -> 0 < T -> S = 1 \/ S = 2 ->
  T * S * A = 79228162514264337593543950336 ->
  1 <= f -> f * A < 9007199254740992 ->
  (1000 * 79228162514264337593543950336) / (f * A) / S <= q'
    <= (1000 * 79228162514264337593543950336) / (f * A) / S + 1 ->
  q' / T = 1000 / f.
Proof.
  intros HA HT HS HP Hf HfA Hq'.
  set (N := 1000 * 79228162514264337593543950336) in *.
  pose proof (Z.div_mod 1000 f ltac:(lia)) as E.
  pose proof (Z.mod_pos_bound 1000 f ltac:(lia)) as R.
  set (D := 1000 / f) in *. set (r := 1000 mod f) in *.
  assert (HD : 0 <= D) by (subst D; apply Z.div_pos; lia).
  assert (HS0 : 0 < S) by lia.
  assert (HfA0 : 0 < f * A) by nia.
  cut (D * T <= q' < (D + 1) * T).
  { intro Hb. symmetry. apply Z.div_unique with (r := q' - D * T); lia. }
  split.
  - apply Z.le_trans with (N / (f * A) / S); [ | apply Hq'].
    apply Z.div_le_lower_bound; [assumption | ].
    apply Z.div_le_lower_bound; [assumption | ].
    replace (f * A * (S * (D * T))) with (f * D * (T * S * A)) by ring.
    rewrite HP. subst N. lia.
  - apply Z.le_lt_trans with (N / (f * A) / S + 1); [apply Hq' | ].
    cut (N / (f * A) / S < (D + 1) * T - 1); [lia | ].
    apply Z.div_lt_upper_bound; [assumption | ].
    apply Z.div_lt_upper_bound; [assumption | ].
    replace (f * A * (S * ((D + 1) * T - 1)))
      with ((f * D + f) * (T * S * A) - f * A * S) by ring.
    rewrite HP. subst N.
    assert (f * A * S <= 2 * 9007199254740992) by nia.
    lia.
Qed.

Lemma div_core_binary_1000 (f : Z) :
  1 <= f < 2 ^ 53 ->
  let k := norm_shift f in
  let m2 := f * 2 ^ k in
  let N := 1000 * 2 ^ 96 in
  SFdiv_core_binary prec emax 8796093022208000 (-43) m2 (- k)
  = (N / m2, k - 96, new_location m2 (N mod m2)).
Proof.
  intros Hf k m2 N.
  pose proof (norm_shift_bounds f ltac:(lia)) as [Hk Hb]. fold k in Hk, Hb. fold m2 in Hb.
  pose proof (norm_shift_le f ltac:(lia)) as Hk'. fold k in Hk'.
  unfold SFdiv_core_binary.
  change (Zdigits2 8796093022208000) with 53.
  assert (Hd2 : Zdigits2 m2 = 53).
  { destruct m2 as [ | p | p ] eqn:Em; try lia. apply Zdigits2_bounds. lia. }
  rewrite Hd2.
  replace (Z.min (fexp prec emax (53 + -43 - (53 + - k))) (-43 - - k)) with (k - 96)
    by (unfold fexp, emin, prec, emax; lia).
  replace (-43 - - k - (k - 96)) with 53 by lia.
  cbv beta iota zeta.
  change (Z.shiftl 8796093022208000 53) with N.
  unfold Z.div, Z.modulo.
  destruct (Z.div_eucl N m2) as [q r]. reflexivity.
Qed.

Lemma truediv_1000 (f : Z) :
  1 <= f < 2 ^ 53 ->
  match py_truediv 1000 f with Some q => py_int q | None => None end
  = Some (1000 / f).
Proof.
  intro Hf.
  pose proof (norm_shift_bounds f ltac:(lia)) as [Hk Hb].
  pose proof (norm_shift_le f ltac:(lia)) as Hk'.
  unfold py_truediv.
  replace (f =? 0) with false by (symmetry; apply Z.eqb_neq; lia).
  rewrite (float_of_int_pos f) by lia.
  change (float_of_int 1000) with (S754_finite false 8796093022208000 (-43)).
  cbn [SFdiv xorb].
  set (k := norm_shift f) in *.
  rewrite Z2Pos.id by lia.
  pose proof (div_core_binary_1000 f Hf) as Hc. cbv zeta in Hc. fold k in Hc.
  rewrite Hc. clear Hc.
  set (m2 := f * 2 ^ k) in *. set (N := 1000 * 2 ^ 96).
  assert (HA : 0 < 2 ^ k) by (apply Z.pow_pos_nonneg; lia).
  assert (Hq : 2 ^ 52 <= N / m2 < 2 ^ 54).
  { split.
    - apply Z.div_le_lower_bound; [lia | ].
      subst N. change (2 ^ 96) with (2 ^ 53 * 2 ^ 43). 
      change (2 ^ 52) with 4503599627370496 in *.
      change (2 ^ 53) with 9007199254740992 in *.
      change (2 ^ 43) with 8796093022208. nia.
    - apply Z.div_lt_upper_bound; [lia | ].
      subst N. change (2 ^ 96) with (2 ^ 52 * 2 ^ 44).
      change (2 ^ 54) with 18014398509481984.
      change (2 ^ 52) with 4503599627370496 in *.
      change (2 ^ 44) with 17592186044416. nia. }
  assert (Hcase : forall sh, sh = 0 \/ sh = 1 -> Zdigits2 (N / m2) = 53 + sh ->
            py_int (binary_round_aux prec emax false (N / m2) (k - 96)
                                     (new_location m2 (N mod m2)))
            = Some (1000 / f)).
  { intros sh Hsh Hd.
    destruct (round_aux_loc (N / m2) (k - 96) sh (new_location m2 (N mod m2)))
      as (q' & Hq' & ->); try assumption; try lia.
    f_equal. apply div_core with (A := 2 ^ k) (S := 2 ^ sh).
    - assumption.
    - apply Z.pow_pos_nonneg; lia.
    - destruct Hsh as [-> | ->]; [left | right]; reflexivity.
    - rewrite <- !Z.pow_add_r by lia.
      change 79228162514264337593543950336 with (2 ^ 96). f_equal. lia.
    - lia.
    - change 9007199254740992 with (2 ^ 53). apply Hb.
    - exact Hq'. }
  destruct (N / m2) as [ | pq | pq ] eqn:Eq; try lia.
  destruct (Z_lt_le_dec (Zpos pq) (2 ^ 53)) as [Hsmall | Hbig].
  - apply (Hcase 0); [left; reflexivity | ]. apply Zdigits2_bounds. lia.
  - apply (Hcase 1); [right; reflexivity | ]. apply Zdigits2_bounds.
    change (53 + 1 - 1) with 53. change (53 + 1) with 54. lia.
Qed.

End Interval.

(* ===================================================================== *)
(** ** The methods, unfolded *)
(* ===================================================================== *)

Section Methods.

Lemma scaled_dim_ok (n : Z) (i : scale_item) (w : world) :
  0 <= n < 2 ^ 53 -> i <> Original ->
  scaled_dim n (scale_of_item i) w = (Ret (scaled n i), w).
Proof.
  intros Hn Hi. unfold scaled_dim. rewrite scaled_value.
  destruct i; [congruence | | | ]; cbn [scale_of_item].
  - rewrite mul_half by assumption. reflexivity.
  - rewrite mul_third by assumption. reflexivity.
  - rewrite mul_quarter by assumption. reflexivity.
Qed.

Lemma scaled_div (n : Z) (i : scale_item) : scaled n i = n / scale_den i.
Proof.
  rewrite scaled_value.
  destruct i; cbn [scale_den]; [rewrite Z.div_1_r | | | ]; reflexivity.
Qed.

Lemma scale_den_pos (i : scale_item) : 1 <= scale_den i.
Proof. destruct i; cbn [scale_den]; lia. Qed.

Lemma scaled_pos (n : Z) (i : scale_item) : scale_den i <= n -> 0 < scaled n i.
Proof.
  intro H. rewrite scaled_div. pose proof (scale_den_pos i).
  apply Z.div_str_pos. lia.
Qed.

Lemma nonempty_iff (g : Z * Z) : nonempty g = true <-> 0 < fst g /\ 0 < snd g.
Proof.
  unfold nonempty. rewrite andb_true_iff, !Z.ltb_lt. reflexivity.
Qed.

Lemma nonempty_pair (a b : Z) : 0 < a -> 0 < b -> nonempty (a, b) = true.
Proof. intros Ha Hb. apply nonempty_iff. split; assumption. Qed.

Lemma shape_from_buffer (h w : Z) :
  cols (FromBuffer h w) = w /\ rows (FromBuffer h w) = h.
Proof. split; reflexivity. Qed.

Lemma qimage_to_numpy_unfold (pix : QPixmap) (w : world) :
  qimage_to_numpy (qimage_from_pixmap pix) w
  = (if nonempty (pix_width pix, pix_height pix)
     then Ret (FromBuffer (pix_height pix) (pix_width pix))
     else Exc AttributeError, w).
Proof.
  unfold qimage_to_numpy, isNull, qimage_from_pixmap. cbn [img_width img_height].
  destruct (nonempty (pix_width pix, pix_height pix)); reflexivity.
Qed.

Lemma cv2_resize_unfold (src : ndarray) (dsize : Z * Z) (w : world) :
  nonempty (cols src, rows src) = true ->
  cv2_resize src dsize INTER_AREA w
  = (if nonempty dsize then Ret (Resize src dsize INTER_AREA) else Exc Cv2Error, w).
Proof.
  intro Hsrc. unfold cv2_resize, resize. rewrite Hsrc. cbn [andb].
  destruct (nonempty dsize); reflexivity.
Qed.

(** The conversion, as one expression: the null grab, the scaled size,
    the resize. *)
Lemma convert_unfold (pix : QPixmap) (w : world) :
  0 <= pix_width pix < 2 ^ 53 -> 0 <= pix_height pix < 2 ^ 53 ->
  let i := scale_box (self w) in
  convert pix w
  = (if nonempty (pix_width pix, pix_height pix)
     then match i with
          | Original => Ret (converted (pix_width pix) (pix_height pix) i)
          | _ => if nonempty (scaled (pix_width pix) i, scaled (pix_height pix) i)
                 then Ret (converted (pix_width pix) (pix_height pix) i)
                 else Exc Cv2Error
          end
     else Exc AttributeError, w).
Proof.
  intros Hw Hh i. unfold convert. unfold bind at 1.
  rewrite qimage_to_numpy_unfold.
  destruct (nonempty (pix_width pix, pix_height pix)) eqn:Hne; [ | reflexivity].
  unfold _scale_factor, bind, get, ret.
  change (cols (FromBuffer (pix_height pix) (pix_width pix))) with (pix_width pix).
  change (rows (FromBuffer (pix_height pix) (pix_width pix))) with (pix_height pix).
  subst i. destruct (scale_box (self w)) eqn:Es.
  - change (py_float_ne (scale_of_item Original) f_1_0) with false. reflexivity.
  - change (py_float_ne (scale_of_item Half) f_1_0) with true. cbv beta iota.
    rewrite scaled_dim_ok by (assumption || discriminate).
    rewrite scaled_dim_ok by (assumption || discriminate).
    rewrite cv2_resize_unfold by exact Hne.
    destruct (nonempty (scaled (pix_width pix) Half, scaled (pix_height pix) Half));
      reflexivity.
  - change (py_float_ne (scale_of_item Third) f_1_0) with true. cbv beta iota.
    rewrite scaled_dim_ok by (assumption || discriminate).
    rewrite scaled_dim_ok by (assumption || discriminate).
    rewrite cv2_resize_unfold by exact Hne.
    destruct (nonempty (scaled (pix_width pix) Third, scaled (pix_height pix) Third));
      reflexivity.
  - change (py_float_ne (scale_of_item Quarter) f_1_0) with true. cbv beta iota.
    rewrite scaled_dim_ok by (assumption || discriminate).
    rewrite scaled_dim_ok by (assumption || discriminate).
    rewrite cv2_resize_unfold by exact Hne.
    destruct (nonempty (scaled (pix_width pix) Quarter, scaled (pix_height pix) Quarter));
      reflexivity.
Qed.

Lemma convert_ok (pix : QPixmap) (w : world) :
  convertible (scale_box (self w)) pix ->
  convert pix w
  = (Ret (converted (pix_width pix) (pix_height pix) (scale_box (self w))), w).
Proof.
  intros [Hw Hh]. pose proof (scale_den_pos (scale_box (self w))) as Hd.
  rewrite convert_unfold by lia. cbv zeta.
  rewrite nonempty_pair by lia.
  rewrite (nonempty_pair (scaled (pix_width pix) (scale_box (self w)))
                         (scaled (pix_height pix) (scale_box (self w))))
    by (apply scaled_pos; lia).
  destruct (scale_box (self w)); reflexivity.
Qed.

Lemma shape_converted (width height : Z) (i : scale_item) :
  shape (converted width height i) = (scaled height i, scaled width i, 3).
Proof.
  destruct i; cbn [converted shape]; rewrite ?scaled_value; reflexivity.
Qed.

Lemma geometry_converted (width height : Z) (i : scale_item) :
  geometry (converted width height i) = (scaled width i, scaled height i).
Proof. unfold geometry, cols, rows. rewrite shape_converted. reflexivity. Qed.

Lemma convert_pure (pix : QPixmap) (w : world) : snd (convert pix w) = w.
Proof.
  unfold convert. unfold bind at 1. rewrite qimage_to_numpy_unfold.
  destruct (nonempty (pix_width pix, pix_height pix)); [ | reflexivity].
  unfold _scale_factor, cv2_resize, scaled_dim, of_option.
  unfold bind, get, ret, raise.
  destruct (py_float_ne (scale_of_item (scale_box (self w))) f_1_0); [ | reflexivity].
  repeat match goal with
         | |- context [py_int ?x] => destruct (py_int x)
         | |- context [resize ?a ?b ?c] => destruct (resize a b c)
         end; reflexivity.
Qed.

(** What the conversion returns has three channels and is not empty. *)
Lemma convert_returns (pix : QPixmap) (w w' : world) (c : ndarray) :
  convert pix w = (Ret c, w') ->
  channels c = 3 /\ nonempty (geometry c) = true.
Proof.
  unfold convert. unfold bind at 1. rewrite qimage_to_numpy_unfold.
  destruct (nonempty (pix_width pix, pix_height pix)) eqn:Hne; [ | discriminate].
  unfold _scale_factor, cv2_resize, scaled_dim, of_option.
  unfold bind, get, ret, raise.
  destruct (py_float_ne (scale_of_item (scale_box (self w))) f_1_0).
  - destruct (py_int (py_mul_int_float _ _)) as [new_w | ]; [ | discriminate].
    destruct (py_int (py_mul_int_float _ _)) as [new_h | ]; [ | discriminate].
    unfold resize.
    destruct (nonempty (cols (FromBuffer (pix_height pix) (pix_width pix)),
                        rows (FromBuffer (pix_height pix) (pix_width pix))));
      [ | discriminate].
    cbn [andb]. destruct (nonempty (new_w, new_h)) eqn:Hd; [ | discriminate].
    intro H. injection H as <- _. split; [reflexivity | exact Hd].
  - intro H. injection H as <- _. split; [reflexivity | exact Hne].
Qed.

Lemma convert_dpr (pix : QPixmap) (w : world) :
  convert (if pix_dpr_is_one pix then pix
           else {| pix_width := pix_width pix; pix_height := pix_height pix;
                   pix_dpr_is_one := true |}) w
  = convert pix w.
Proof. destruct (pix_dpr_is_one pix); reflexivity. Qed.

Lemma size_eqb_refl (g : Z * Z) : size_eqb g g = true.
Proof. unfold size_eqb. rewrite !Z.eqb_refl. reflexivity. Qed.

Lemma on_tick_unfold (pix : QPixmap) (opens : bool) (w : world) :
  _on_tick pix opens w =
  if negb (screen (self w)) then (Ret tt, w)
  else if negb (recording (self w)) then (Ret tt, after_preview w)
  else match fst (convert pix (after_preview w)) with
       | Exc e => (Exc e, after_preview w)
       | Ret c => record_frame c opens (after_preview w)
       end.
Proof.
  unfold _on_tick. unfold bind at 1. unfold get at 1.
  destruct (screen (self w)); [ | reflexivity]. cbn [negb].
  unfold bind at 1. unfold emit at 1. unfold bind at 1. unfold emit at 1.
  cbn [self log]. rewrite <- app_assoc. cbn [app]. fold (after_preview w).
  destruct (recording (self w)); [ | reflexivity]. cbn [negb].
  unfold bind at 1. rewrite convert_dpr.
  pose proof (convert_pure pix (after_preview w)) as Hp.
  destruct (convert pix (after_preview w)) as [[c | e] w1] eqn:Hcv; cbn [fst snd] in *;
    subst w1; [ | reflexivity].
  apply convert_returns in Hcv. destruct Hcv as [_ Hc].
  set (w1 := after_preview w).
  unfold record_frame, _init_writer, cv2_resize, resize, of_option.
  unfold bind, get, emit, modify, ret, raise.
  cbn [self log].
  destruct (writer (self w1)) as [vw | ] eqn:Ew.
  - cbn [self log]. rewrite Ew.
    destruct (target_size (self w1)) as [g | ]; [ | reflexivity].
    unfold fits, fit. unfold geometry in *. rewrite Hc. cbn [andb].
    destruct (size_eqb (cols c, rows c) g); cbn [negb orb]; [reflexivity | ].
    destruct (nonempty g); reflexivity.
  - destruct (target_path (self w1)) as [p | ]; [ | reflexivity].
    destruct opens; cbn [negb vw_isOpened self log set_writer set_target_size writer target_size];
      [ | reflexivity].
    rewrite size_eqb_refl. cbn [negb].
    cbn [self log]. rewrite <- app_assoc. reflexivity.
Qed.

Lemma release_writer_unfold (r : bool) (w : world) :
  _release_writer r w =
  (Ret tt, match writer (self w) with
           | Some vw => {| self := set_writer None (self w);
                           log := log w ++ [EvRelease vw] |}
           | None => w
           end).
Proof.
  unfold _release_writer, release, try_except.
  unfold bind, get, emit, modify, ret, raise.
  destruct (writer (self w)) as [vw | ]; [ | reflexivity].
  destruct r; reflexivity.
Qed.

Lemma stop_recording_unfold (r : bool) (w : world) :
  _stop_recording r w =
  (Ret tt, if recording (self w)
           then {| self := stopped (self w);
                   log := log w ++ EvTimerStop :: release_events (self w) |}
           else w).
Proof.
  unfold _stop_recording. unfold bind at 1. unfold get at 1.
  destruct (recording (self w)) eqn:Er; [ | reflexivity]. cbn [negb].
  unfold bind. unfold emit at 1. unfold modify at 1 2 3 4.
  cbn [self log]. rewrite release_writer_unfold. cbn [self log].
  unfold release_events, modify, stopped.
  destruct (self w) as [tm rec sc lft wr tp ts bs bp fps sb kr]. cbn.
  destruct wr as [vw | ]; cbn; [rewrite <- app_assoc | ]; reflexivity.
Qed.

Lemma close_event_unfold (r : bool) (w : world) :
  closeEvent r w =
  (Ret tt, if recording (self w)
           then {| self := stopped (self w);
                   log := log w ++ EvTimerStop :: release_events (self w)
                                ++ [EvSuperClose] |}
           else {| self := self w; log := log w ++ [EvSuperClose] |}).
Proof.
  unfold closeEvent, bind. rewrite stop_recording_unfold. unfold emit.
  destruct (recording (self w)); cbn [self log]; [ | reflexivity].
  rewrite <- app_assoc. reflexivity.
Qed.

Lemma start_recording_unfold (chosen : string) (w : world) :
  fps_box (self w) < 2 ^ 53 ->
  _start_recording chosen w =
  (Ret tt,
   if recording (self w) then w
   else if String.eqb chosen EmptyString
        then {| self := set_target_path None (self w); log := log w ++ [EvDialog] |}
        else let ms := 1000 / Z.max 1 (fps_box (self w)) in
             {| self := started (self w) chosen ms;
                log := log w ++ [EvDialog; EvTimerStart ms] |}).
Proof.
  intro Hfps.
  unfold _start_recording. unfold bind at 1. unfold get at 1.
  destruct (recording (self w)) eqn:Er; [reflexivity | ].
  unfold _choose_target.
  unfold bind at 1. unfold bind at 1. unfold emit at 1. unfold ret at 1.
  unfold bind at 1. unfold modify at 1. cbn [self log].
  destruct (String.eqb chosen EmptyString); [reflexivity | ].
  unfold bind at 1. unfold get at 1. cbn [self log fps_box set_target_path].
  pose proof (truediv_1000 (Z.max 1 (fps_box (self w))) ltac:(lia)) as Hdiv.
  unfold bind at 1.
  destruct (py_truediv 1000 (Z.max 1 (fps_box (self w)))) as [q | ]; [ | discriminate].
  cbn [of_option]. unfold ret at 1. unfold bind at 1. rewrite Hdiv.
  cbn [of_option]. unfold ret at 1.
  unfold bind, emit, modify. cbn [self log]. rewrite <- app_assoc.
  destruct (self w) as [tm rec sc lft wr tp ts bs bp fps sb kr]. reflexivity.
Qed.

End Methods.

(* ===================================================================== *)
(** ** File names and their suffix *)
(* ===================================================================== *)

Section Paths.

Lemma has_slash_app (a b : string) :
  has_slash (a ++ b)%string = (has_slash a || has_slash b)%bool.
Proof.
  unfold has_slash. induction a as [ | c a IH]; [reflexivity | ].
  cbn [append list_ascii_of_string existsb]. rewrite IH, orb_assoc. reflexivity.
Qed.

Lemma name_no_slash (s : string) : has_slash s = false -> name s = s.
Proof.
  destruct s as [ | c r]; [reflexivity | ].
  unfold has_slash. cbn [list_ascii_of_string existsb name].
  intro H. apply orb_false_iff in H. destruct H as [Hc Hr].
  fold (has_slash r) in Hr. rewrite Hr, Ascii.eqb_sym, Hc. reflexivity.
Qed.

Lemma name_after_slash (d s : string) :
  has_slash s = false -> name (d ++ "/" ++ s)%string = s.
Proof.
  intro Hs. induction d as [ | c d IH].
  - cbn [append name]. rewrite Hs. reflexivity.
  - cbn [append name]. rewrite has_slash_app.
    change (has_slash ("/" ++ s)%string) with (true || has_slash s)%bool.
    rewrite orb_true_r. exact IH.
Qed.

Lemma rfind_dot_none (s : string) : has_dot s = false -> rfind_dot s = None.
Proof.
  unfold has_dot. induction s as [ | c r IH]; [reflexivity | ].
  cbn [list_ascii_of_string existsb rfind_dot]. intro H.
  apply orb_false_iff in H. destruct H as [Hc Hr].
  rewrite (IH Hr), Ascii.eqb_sym, Hc. reflexivity.
Qed.

Lemma rfind_dot_ext (stem ext : string) :
  has_dot ext = false ->
  rfind_dot (stem ++ "." ++ ext)%string = Some (String.length stem).
Proof.
  intro He. change ("." ++ ext)%string with (String "." ext).
  induction stem as [ | c stem IH].
  - cbn [append rfind_dot String.length]. rewrite (rfind_dot_none ext He). reflexivity.
  - cbn [append rfind_dot String.length]. rewrite IH. reflexivity.
Qed.

Lemma drop_stem (stem rest : string) : drop (String.length stem) (stem ++ rest)%string = rest.
Proof.
  induction stem as [ | c stem IH]; [destruct rest; reflexivity | exact IH].
Qed.

Lemma string_length_app (a b : string) :
  String.length (a ++ b)%string = (String.length a + String.length b)%nat.
Proof. induction a as [ | c a IH]; [reflexivity | cbn; rewrite IH; reflexivity]. Qed.

Lemma suffix_of_file (pre stem ext : string) :
  file_form pre stem ext ->
  suffix (pre ++ stem ++ "." ++ ext)%string = ("." ++ ext)%string.
Proof.
  intros (Hpre & Hstem & Hss & Hext & Hes & Hed).
  assert (Hrest : has_slash (stem ++ "." ++ ext)%string = false).
  { rewrite !has_slash_app, Hss, Hes. reflexivity. }
  assert (Hname : name (pre ++ stem ++ "." ++ ext)%string = (stem ++ "." ++ ext)%string).
  { destruct Hpre as [-> | [d ->]].
    - apply name_no_slash. exact Hrest.
    - rewrite <- (name_after_slash d _ Hrest) at 2.
      f_equal. clear. induction d as [ | c d IH]; [reflexivity | ].
      cbn [append]. f_equal. exact IH. }
  unfold suffix. rewrite Hname, (rfind_dot_ext stem ext Hed).
  rewrite !string_length_app.
  destruct stem as [ | c stem]; [congruence | ].
  destruct ext as [ | c' ext]; [congruence | ].
  replace (Nat.ltb 0 (String.length (String c stem))) with true by reflexivity.
  replace (Nat.ltb _ _) with true.
  - cbn [andb]. apply drop_stem.
  - symmetry. apply Nat.ltb_lt. cbn [String.length]. lia.
Qed.

Lemma fourcc_of_file (pre stem ext : string) :
  file_form pre stem ext ->
  fourcc_of_path (pre ++ stem ++ "." ++ ext)%string
  = if String.eqb (lower ext) "mp4"
    then VideoWriter_fourcc "m" "p" "4" "v"
    else VideoWriter_fourcc "X" "V" "I" "D".
Proof.
  intro Hf. unfold fourcc_of_path. rewrite (suffix_of_file _ _ _ Hf). reflexivity.
Qed.

End Paths.

(* ===================================================================== *)
(** ** Runs: consistency, ticks, sessions *)
(* ===================================================================== *)

Section Runs.

(** *** Every state the application reaches is consistent *)

Lemma consistent_init (b : bool) : consistent (self (init b)).
Proof. unfold consistent; cbn. repeat split; lia. Qed.

Lemma record_frame_consistent (c : ndarray) (opens : bool) (w : world) :
  recording (self w) = true -> consistent (self w) ->
  consistent (self (snd (record_frame c opens w))).
Proof.
  intros Hrec Hc. unfold record_frame.
  destruct (writer (self w)) as [vw | ] eqn:Ew.
  - destruct (target_size (self w)) as [g | ]; [destruct (fits g c) | ]; assumption.
  - destruct (target_path (self w)) as [p | ]; [ | assumption].
    destruct opens; [ | assumption].
    destruct Hc as (Hf & Ht & Hw). rewrite Hrec in Ht.
    unfold consistent. cbn. rewrite Hrec. repeat split; assumption || lia.
Qed.

Lemma exec_consistent (a : action) (w : world) :
  consistent (self w) -> consistent (self (exec a w)).
Proof.
  intro Hc. pose proof Hc as (Hf & Ht & Hw).
  destruct a as [chosen | r | r | pix opens | v | i | b]; unfold exec, slot.
  - rewrite start_recording_unfold by lia. cbn [snd].
    destruct (recording (self w)) eqn:Er; [assumption | ].
    destruct Ht as (Ha & Hwr & Hp & Hs).
    destruct (String.eqb chosen EmptyString).
    + unfold consistent. cbn. rewrite Er, Hwr. repeat split; assumption || lia.
    + unfold consistent. cbn. rewrite Hwr. repeat split; assumption || lia.
  - rewrite stop_recording_unfold. cbn [snd].
    destruct (recording (self w)); [ | assumption].
    unfold consistent. cbn. repeat split; lia.
  - rewrite close_event_unfold. cbn [snd].
    destruct (recording (self w)); [ | assumption].
    unfold consistent. cbn. repeat split; lia.
  - rewrite on_tick_unfold.
    destruct (screen (self w)); [ | assumption]. cbn [negb].
    destruct (recording (self w)) eqn:Er; [ | assumption]. cbn [negb].
    destruct (fst (convert pix (after_preview w))) as [c | e]; [ | assumption].
    apply record_frame_consistent; assumption.
  - unfold consistent. cbn. repeat split; assumption || lia.
  - exact Hc.
  - exact Hc.
Qed.

Lemma run_consistent (acts : list action) (w : world) :
  consistent (self w) -> consistent (self (run acts w)).
Proof.
  revert w. induction acts as [ | a acts IH]; intros w Hc; [assumption | ].
  cbn [run fold_left]. apply IH. apply exec_consistent. assumption.
Qed.

Lemma geometry_fit (g : Z * Z) (c : ndarray) : geometry (fit g c) = g.
Proof.
  unfold fit. destruct (size_eqb (geometry c) g) eqn:E.
  - unfold size_eqb in E. apply andb_true_iff in E. destruct E as [E1 E2].
    apply Z.eqb_eq in E1, E2. destruct g as [gw gh]. cbn [fst snd] in *.
    unfold geometry in *. cbn [fst snd] in *. congruence.
  - destruct g as [gw gh]. unfold geometry, cols, rows. cbn [shape].
    destruct (shape c) as [[h0 w0] c0]. reflexivity.
Qed.

Lemma fit_same (c : ndarray) : fit (geometry c) c = c.
Proof. unfold fit. rewrite size_eqb_refl. reflexivity. Qed.

Lemma written_app (a b : list event) : written (a ++ b) = written a ++ written b.
Proof. apply flat_map_app. Qed.

Lemma open_calls_app (a b : list event) :
  open_calls (a ++ b) = open_calls a ++ open_calls b.
Proof. apply flat_map_app. Qed.

Lemma converts_to_cons (a : action) (acts : list action) (c : ndarray) :
  converts_to acts c -> converts_to (a :: acts) c.
Proof.
  intros (pix & o & w & Hin & Hc). exists pix, o, w. split; [right | ]; assumption.
Qed.

Lemma exec_tick (pix : QPixmap) (opens : bool) (w : world) :
  tick_outcome pix w (exec (Tick pix opens) w).
Proof.
  unfold exec, slot. rewrite on_tick_unfold.
  destruct (screen (self w)); cbn [negb].
  2:{ apply tick_silent with (evs := []); cbn [snd];
        [reflexivity | symmetry; apply app_nil_r | reflexivity
        | destruct (writer (self w)); constructor]. }
  destruct (recording (self w)); cbn [negb].
  2:{ apply tick_silent with (evs := [EvGrab; EvPreview (keep_ratio (self w))]);
        [reflexivity | reflexivity | reflexivity
        | destruct (writer (self w)); constructor]. }
  pose proof (convert_pure pix (after_preview w)) as Hp.
  destruct (convert pix (after_preview w)) as [[c | e] w1] eqn:Ec;
    cbn [fst snd] in *; subst w1.
  2:{ apply tick_silent with (evs := [EvGrab; EvPreview (keep_ratio (self w))]);
        [reflexivity | reflexivity | reflexivity
        | destruct (writer (self w)); constructor]. }
  unfold record_frame. cbn [after_preview self log].
  destruct (writer (self w)) as [vw | ] eqn:Ew.
  - destruct (target_size (self w)) as [g | ] eqn:Et.
    + destruct (fits g c) eqn:Ef.
      * apply tick_next with (c := c) (vw := vw) (g := g)
          (evs := [EvGrab; EvPreview (keep_ratio (self w)); EvWrite vw (fit g c)]);
          try assumption; try reflexivity.
        cbn [snd log]. rewrite <- app_assoc. reflexivity.
      * apply tick_silent with (evs := [EvGrab; EvPreview (keep_ratio (self w))]);
          [reflexivity | reflexivity | reflexivity | rewrite Ew; reflexivity].
    + apply tick_silent with (evs := [EvGrab; EvPreview (keep_ratio (self w))]);
        [reflexivity | reflexivity | reflexivity | rewrite Ew; reflexivity].
  - destruct (target_path (self w)) as [p | ] eqn:Ep.
    + destruct opens.
      * apply tick_first with (c := c) (vw := writer_for (self w) p c true);
          try assumption; try reflexivity.
        cbn [snd log]. rewrite <- app_assoc. reflexivity.
      * apply tick_silent
          with (evs := [EvGrab; EvPreview (keep_ratio (self w));
                        EvOpen (writer_for (self w) p c false)]);
          [reflexivity | | reflexivity | ].
        -- cbn [snd log]. rewrite <- app_assoc. reflexivity.
        -- rewrite Ew. repeat constructor.
    + apply tick_silent with (evs := [EvGrab; EvPreview (keep_ratio (self w))]);
        [reflexivity | reflexivity | reflexivity | rewrite Ew; constructor].
Qed.

(** The controls touch neither the log nor the session fields. *)
Lemma exec_control (a : action) (w : world) :
  in_session a = true -> is_tick a = false ->
  log (exec a w) = log w
  /\ writer (self (exec a w)) = writer (self w)
  /\ target_size (self (exec a w)) = target_size (self w)
  /\ target_path (self (exec a w)) = target_path (self w)
  /\ screen (self (exec a w)) = screen (self w)
  /\ recording (self (exec a w)) = recording (self w).
Proof.
  destruct a; cbn [in_session is_tick]; try discriminate; intros _ _;
    repeat split.
Qed.

Lemma exec_tick_recording (pix : QPixmap) (opens : bool) (w : world)
      (vw : VideoWriter) (g : Z * Z) :
  screen (self w) = true -> recording (self w) = true ->
  convertible (scale_box (self w)) pix ->
  writer (self w) = Some vw -> target_size (self w) = Some g ->
  nonempty g = true ->
  exec (Tick pix opens) w
  = {| self := self w;
       log := log w ++ [EvGrab; EvPreview (keep_ratio (self w));
                        EvWrite vw (fit g (converted (pix_width pix) (pix_height pix)
                                                     (scale_box (self w))))] |}.
Proof.
  intros Hs Hr Hpix Hw Ht Hg. unfold exec, slot.
  rewrite on_tick_unfold, Hs, Hr. cbn [negb].
  rewrite convert_ok by assumption. cbn [fst].
  unfold record_frame. cbn [after_preview self log]. rewrite Hw, Ht.
  unfold fits. rewrite Hg, orb_true_r. cbn [snd].
  rewrite <- app_assoc. reflexivity.
Qed.

Lemma exec_tick_first (pix : QPixmap) (w : world) (p : Path) :
  screen (self w) = true -> recording (self w) = true ->
  convertible (scale_box (self w)) pix ->
  writer (self w) = None -> target_path (self w) = Some p ->
  let c := converted (pix_width pix) (pix_height pix) (scale_box (self w)) in
  let vw := writer_for (self w) p c true in
  exec (Tick pix true) w
  = {| self := set_target_size (Some (geometry c)) (set_writer (Some vw) (self w));
       log := log w ++ [EvGrab; EvPreview (keep_ratio (self w));
                        EvOpen vw; EvWrite vw c] |}.
Proof.
  intros Hs Hr Hpix Hw Hp c vw. unfold exec, slot.
  rewrite on_tick_unfold, Hs, Hr. cbn [negb].
  rewrite convert_ok by assumption. cbn [fst].
  unfold record_frame. cbn [after_preview self log]. rewrite Hw, Hp. cbn [snd].
  rewrite <- app_assoc. reflexivity.
Qed.

Lemma run_cons (a : action) (acts : list action) (w : world) :
  run (a :: acts) w = run acts (exec a w).
Proof. reflexivity. Qed.

Lemma session_with_writer (acts : list action) :
  forall (w : world) (vw : VideoWriter) (g : Z * Z),
    forallb in_session acts = true ->
    writer (self w) = Some vw -> target_size (self w) = Some g ->
    exists evs,
      log (run acts w) = log w ++ evs
      /\ writer (self (run acts w)) = Some vw
      /\ target_size (self (run acts w)) = Some g
      /\ open_calls evs = []
      /\ Forall (fun f => exists c, converts_to acts c /\ f = fit g c) (written evs).
Proof.
  induction acts as [ | a acts IH]; intros w vw g Hin Hw Ht.
  - exists []. cbn [run fold_left]. rewrite app_nil_r. repeat split; try assumption.
    constructor.
  - cbn [forallb] in Hin. apply andb_true_iff in Hin. destruct Hin as [Ha Hin].
    rewrite run_cons.
    assert (Hstep : exists evs0,
               log (exec a w) = log w ++ evs0
               /\ writer (self (exec a w)) = Some vw
               /\ target_size (self (exec a w)) = Some g
               /\ open_calls evs0 = []
               /\ Forall (fun f => exists c, converts_to (a :: acts) c /\ f = fit g c)
                         (written evs0)).
    { destruct (is_tick a) eqn:Etick.
      - destruct a as [ | | | pix opens | | | ]; try discriminate.
        destruct (exec_tick pix opens w)
          as [evs Hself Hlog Hwr Hop
             | c vw' Hnone _ _ _ _ _ _ _
             | c vw' g' evs Hw' Ht' Hc _ Hself Hlog Hwr Hop].
        + exists evs. rewrite Hself, Hw in *. rewrite Hwr.
          repeat split; try assumption. constructor.
        + congruence.
        + exists evs. rewrite Hself, Hwr. repeat split; try assumption.
          constructor; [ | constructor].
          exists c. split; [ | congruence].
          exists pix, opens, (after_preview w). split; [left; reflexivity | assumption].
      - destruct (exec_control a w Ha Etick) as (Hl & Hw' & Ht' & _).
        exists []. rewrite Hl, Hw', Ht', app_nil_r.
        repeat split; try assumption. constructor. }
    destruct Hstep as (evs0 & Hl0 & Hw0 & Ht0 & Ho0 & Hf0).
    destruct (IH (exec a w) vw g Hin Hw0 Ht0) as (evs1 & Hl1 & Hw1 & Ht1 & Ho1 & Hf1).
    exists (evs0 ++ evs1). repeat split; try assumption.
    + rewrite Hl1, Hl0, app_assoc. reflexivity.
    + rewrite open_calls_app, Ho0, Ho1. reflexivity.
    + rewrite written_app. apply Forall_app. split; [assumption | ].
      eapply Forall_impl; [ | exact Hf1].
      intros f (c & Hc & Hfc). exists c. split; [apply converts_to_cons | ]; assumption.
Qed.

Lemma filter_all_false {A : Type} (p : A -> bool) (l : list A) :
  Forall (fun x => p x = false) l -> filter p l = [].
Proof.
  induction 1 as [ | x l Hx _ IH]; [reflexivity | ].
  cbn [filter]. rewrite Hx. exact IH.
Qed.

Lemma opened_once_later (evs0 evs : list event) (vw : VideoWriter) (f0 : ndarray) :
  written evs0 = [] ->
  Forall (fun v => vw_isOpened v = false) (open_calls evs0) ->
  opened_once evs vw f0 -> opened_once (evs0 ++ evs) vw f0.
Proof.
  intros Hwr Hop (pre & post & -> & Hpw & Hpo & Hpost & Hopen).
  exists (evs0 ++ pre), post. repeat split; try assumption.
  - rewrite app_assoc. reflexivity.
  - rewrite written_app, Hwr, Hpw. reflexivity.
  - rewrite open_calls_app. apply Forall_app. split; assumption.
Qed.

Lemma opened_once_count (evs : list event) (vw : VideoWriter) (f0 : ndarray) :
  opened_once evs vw f0 -> filter vw_isOpened (open_calls evs) = [vw].
Proof.
  intros (pre & post & -> & _ & Hpo & Hpost & Hopen).
  rewrite open_calls_app. cbn [open_calls flat_map app].
  fold (open_calls post). rewrite Hpost, filter_app, (filter_all_false _ _ Hpo).
  cbn [filter app]. rewrite Hopen. reflexivity.
Qed.

Lemma session_fresh (acts : list action) :
  forall (w : world),
    forallb in_session acts = true -> writer (self w) = None ->
    exists evs,
      log (run acts w) = log w ++ evs
      /\ match written evs with
         | [] => writer (self (run acts w)) = None
                 /\ Forall (fun v => vw_isOpened v = false) (open_calls evs)
         | f0 :: rest =>
             converts_to acts f0
             /\ target_size (self (run acts w)) = Some (geometry f0)
             /\ Forall (fun f => exists c, converts_to acts c /\ f = fit (geometry f0) c)
                       rest
             /\ exists vw, opened_once evs vw f0
                           /\ vw_frameSize vw = geometry f0
                           /\ target_path (self w) = Some (vw_filename vw)
                           /\ writer (self (run acts w)) = Some vw
         end.
Proof.
  induction acts as [ | a acts IH]; intros w Hin Hw.
  - exists []. cbn [run fold_left written flat_map]. rewrite app_nil_r.
    repeat split; try assumption. constructor.
  - cbn [forallb] in Hin. apply andb_true_iff in Hin. destruct Hin as [Ha Hin].
    rewrite run_cons.
    assert (Hlift : forall evs0,
               log (exec a w) = log w ++ evs0 -> written evs0 = [] ->
               Forall (fun v => vw_isOpened v = false) (open_calls evs0) ->
               writer (self (exec a w)) = None ->
               target_path (self (exec a w)) = target_path (self w) ->
               exists evs,
                 log (run acts (exec a w)) = log w ++ evs
                 /\ match written evs with
                    | [] => writer (self (run acts (exec a w))) = None
                            /\ Forall (fun v => vw_isOpened v = false) (open_calls evs)
                    | f0 :: rest =>
                        converts_to (a :: acts) f0
                        /\ target_size (self (run acts (exec a w))) = Some (geometry f0)
                        /\ Forall (fun f => exists c, converts_to (a :: acts) c
                                                      /\ f = fit (geometry f0) c) rest
                        /\ exists vw, opened_once evs vw f0
                                      /\ vw_frameSize vw = geometry f0
                                      /\ target_path (self w) = Some (vw_filename vw)
                                      /\ writer (self (run acts (exec a w))) = Some vw
                    end).
    { intros evs0 Hl0 Hwr0 Hop0 Hw0 Hp0.
      destruct (IH (exec a w) Hin Hw0) as (evs1 & Hl1 & Hm).
      exists (evs0 ++ evs1). split; [rewrite Hl1, Hl0, app_assoc; reflexivity | ].
      rewrite written_app, Hwr0, app_nil_l.
      destruct (written evs1) as [ | f0 rest].
      - destruct Hm as [Hn Hf]. split; [assumption | ].
        rewrite open_calls_app. apply Forall_app. split; assumption.
      - destruct Hm as (Hc & Hts & Hrest & vw & Honce & Hsz & Hpath & Hwf).
        split; [apply converts_to_cons; assumption | ].
        split; [assumption | ]. split.
        + eapply Forall_impl; [ | exact Hrest].
          intros f (c & Hcc & Hfc). exists c.
          split; [apply converts_to_cons | ]; assumption.
        + exists vw. repeat split; try assumption; try congruence.
          apply opened_once_later; assumption. }
    destruct (is_tick a) eqn:Etick.
    + destruct a as [ | | | pix opens | | | ]; try discriminate.
      destruct (exec_tick pix opens w)
        as [evs Hself Hlog Hwr Hop
           | c vw _ Hc Hself Hsz Hopen Hpath Hfps Hlog
           | c vw' g' evs Hw' _ _ _ _ _ _ _].
      * rewrite Hw in Hop. apply (Hlift evs); try assumption; rewrite Hself;
          [assumption | reflexivity].
      * assert (Hw1 : writer (self (exec (Tick pix opens) w)) = Some vw)
          by (rewrite Hself; reflexivity).
        assert (Ht1 : target_size (self (exec (Tick pix opens) w)) = Some (geometry c))
          by (rewrite Hself; reflexivity).
        destruct (session_with_writer acts _ vw (geometry c) Hin Hw1 Ht1)
          as (evs1 & Hl1 & Hwf & Htf & Ho1 & Hf1).
        exists ([EvGrab; EvPreview (keep_ratio (self w)); EvOpen vw; EvWrite vw c] ++ evs1).
        split; [rewrite Hl1, Hlog, app_assoc; reflexivity | ].
        rewrite written_app. cbn [written flat_map app]. fold (written evs1).
        split.
        { exists pix, opens, (after_preview w). split; [left; reflexivity | assumption]. }
        split; [assumption | ]. split.
        { eapply Forall_impl; [ | exact Hf1].
          intros f (c' & Hcc & Hfc). exists c'.
          split; [apply converts_to_cons | ]; assumption. }
        exists vw. repeat split; try assumption.
        exists [EvGrab; EvPreview (keep_ratio (self w))], evs1.
        repeat split; try assumption. constructor.
      * congruence.
    + destruct (exec_control a w Ha Etick) as (Hl & Hw' & _ & Hp' & _).
      apply (Hlift []); [rewrite Hl, app_nil_r; reflexivity | reflexivity
                         | constructor | congruence | assumption].
Qed.

(** A control other than the scale box leaves the scale entry alone. *)
Lemma exec_scale (a : action) (w : world) :
  in_session a = true -> is_tick a = false ->
  scale_box (self (exec a w))
  = match a with SetScale j => j | _ => scale_box (self w) end.
Proof.
  destruct a; cbn [in_session is_tick]; try discriminate; intros _ _; reflexivity.
Qed.

(** With a writer in place and a size the resize accepts, a session of
    convertible grabs writes one frame per tick: the converted buffer,
    fitted to the session size. *)
Lemma session_exact (acts : list action) :
  forall (w : world) (vw : VideoWriter) (g : Z * Z),
    forallb in_session acts = true -> grabs_fit (scale_box (self w)) acts ->
    screen (self w) = true -> recording (self w) = true ->
    writer (self w) = Some vw -> target_size (self w) = Some g ->
    nonempty g = true ->
    written (log (run acts w))
    = written (log w) ++ map (fit g) (session_frames (scale_box (self w)) acts).
Proof.
  induction acts as [ | a acts IH]; intros w vw g Hin Hfit Hs Hr Hw Ht Hg.
  - cbn [run fold_left session_frames map]. rewrite app_nil_r. reflexivity.
  - cbn [forallb] in Hin. apply andb_true_iff in Hin. destruct Hin as [Ha Hin].
    rewrite run_cons. destruct (is_tick a) eqn:Etick.
    + destruct a as [ | | | pix opens | | | ]; try discriminate.
      cbn [grabs_fit] in Hfit. destruct Hfit as [Hpix Hfit].
      pose proof (exec_tick_recording pix opens w vw g Hs Hr Hpix Hw Ht Hg) as E.
      rewrite (IH _ vw g); try assumption; try (rewrite E; assumption).
      rewrite E. cbn [self log session_frames map]. rewrite written_app.
      rewrite <- app_assoc. reflexivity.
    + destruct (exec_control a w Ha Etick) as (Hl & Hw' & Ht' & _ & Hs' & Hr').
      pose proof (exec_scale a w Ha Etick) as Hsc.
      rewrite (IH _ vw g); try assumption; try congruence.
      * rewrite Hl, Hsc. destruct a; try discriminate; reflexivity.
      * rewrite Hsc. destruct a; try discriminate; exact Hfit.
Qed.

Lemma session_frames_length (acts : list action) :
  forall i, List.length (session_frames i acts) = List.length (filter is_tick acts).
Proof.
  induction acts as [ | a acts IH]; intro i; [reflexivity | ].
  destruct a; cbn [session_frames filter is_tick List.length]; rewrite ?IH; reflexivity.
Qed.

Lemma written_first (vw : VideoWriter) (f0 : ndarray) (k : bool) (evs : list event) :
  written ([EvGrab; EvPreview k; EvOpen vw; EvWrite vw f0] ++ evs) = f0 :: written evs.
Proof. reflexivity. Qed.

Lemma grabs_fit_repeat (i : scale_item) (pix : QPixmap) (opens : bool) (n : nat) :
  convertible i pix -> grabs_fit i (repeat (Tick pix opens) n).
Proof.
  intro H. induction n as [ | n IH]; [exact I | ]. split; assumption.
Qed.

(** A session whose first tick opens the writer: the state after that
    tick, and the frames of the ticks that follow. *)
Lemma session_opened (pix : QPixmap) (acts : list action) (w : world) (p : Path) :
  forallb in_session acts = true ->
  screen (self w) = true -> recording (self w) = true ->
  writer (self w) = None -> target_path (self w) = Some p ->
  convertible (scale_box (self w)) pix ->
  let c := converted (pix_width pix) (pix_height pix) (scale_box (self w)) in
  let g := (scaled (pix_width pix) (scale_box (self w)),
            scaled (pix_height pix) (scale_box (self w))) in
  let vw := {| vw_filename := p; vw_fourcc := fourcc_of_path p;
               vw_fps := fps_box (self w); vw_frameSize := g;
               vw_isOpened := true |} in
  exists evs,
    log (run (Tick pix true :: acts) w)
    = log w ++ [EvGrab; EvPreview (keep_ratio (self w)); EvOpen vw; EvWrite vw c] ++ evs
    /\ geometry c = g
    /\ open_calls evs = []
    /\ writer (self (run (Tick pix true :: acts) w)) = Some vw
    /\ target_size (self (run (Tick pix true :: acts) w)) = Some g
    /\ Forall (fun f => geometry f = g) (written evs)
    /\ (grabs_fit (scale_box (self w)) acts ->
        written evs = map (fit g) (session_frames (scale_box (self w)) acts)).
Proof.
  intros Hin Hs Hr Hw Hp Hpix c g vw.
  assert (Hg : geometry c = g) by apply geometry_converted.
  assert (Hne : nonempty g = true).
  { destruct Hpix as [Hpw Hph]. apply nonempty_pair; apply scaled_pos; lia. }
  pose proof (exec_tick_first pix w p Hs Hr Hpix Hw Hp) as E. cbv zeta in E.
  fold c in E. unfold writer_for in E. rewrite Hg in E. fold g vw in E.
  rewrite run_cons.
  set (w1 := exec (Tick pix true) w) in *.
  assert (Hw1 : writer (self w1) = Some vw) by (rewrite E; reflexivity).
  assert (Ht1 : target_size (self w1) = Some g) by (rewrite E; reflexivity).
  destruct (session_with_writer acts w1 vw g Hin Hw1 Ht1)
    as (evs & Hlog & Hwf & Htf & Hop & Hall).
  exists evs. repeat split; try assumption.
  - rewrite Hlog, E. cbn [log]. rewrite <- app_assoc. reflexivity.
  - eapply Forall_impl; [ | exact Hall].
    intros f (c' & _ & ->). apply geometry_fit.
  - intro Hfit.
    assert (Hs1 : screen (self w1) = true) by (rewrite E; assumption).
    assert (Hr1 : recording (self w1) = true) by (rewrite E; assumption).
    assert (Hsc : scale_box (self w1) = scale_box (self w)) by (rewrite E; reflexivity).
    rewrite <- Hsc in Hfit.
    pose proof (session_exact acts w1 vw g Hin Hfit Hs1 Hr1 Hw1 Ht1 Hne) as Hex.
    rewrite Hlog, written_app, Hsc in Hex.
    apply app_inv_head in Hex. exact Hex.
Qed.

End Runs.

(* ===================================================================== *)
(** ** The properties of the specification *)
(* ===================================================================== *)

(** C1.  In one recording session (ticks and changes of the controls,
    starting with no writer), every frame handed to [writer.write] has the
    width and height of the first one; the first one is written exactly as
    the conversion returned it, and its size is the session's
    [target_size]; every later frame is the converted buffer itself when
    its size already agrees, and that buffer resized to the session size
    otherwise.  While nothing has been written there is still no writer.
    And frames are written: when the first tick opens the writer and every
    grab is convertible, each tick writes exactly one frame, so that the
    frames written are the first converted buffer followed, for each later
    tick in order, by its converted buffer, unchanged if it has the
    session size and resized to it with [INTER_AREA] if not.  Tick by tick:
    with a writer in place, a tick with a convertible grab hands that
    writer exactly one frame, the converted buffer if it has the session
    size and the buffer resized to the session size otherwise. *)
Theorem geometry_invariant :
  (forall (acts : list action) (w : world),
      forallb in_session acts = true -> writer (self w) = None ->
      exists evs,
        log (run acts w) = log w ++ evs
        /\ match written evs with
           | [] => writer (self (run acts w)) = None
           | f0 :: rest =>
               converts_to acts f0
               /\ target_size (self (run acts w)) = Some (geometry f0)
               /\ Forall (fun f => geometry f = geometry f0
                                   /\ exists c, converts_to acts c
                                                /\ f = (if size_eqb (geometry c) (geometry f0)
                                                        then c
                                                        else Resize c (geometry f0) INTER_AREA))
                         (f0 :: rest)
           end)
  /\ (forall (pix : QPixmap) (acts : list action) (w : world) (p : Path),
      forallb in_session acts = true ->
      screen (self w) = true -> recording (self w) = true ->
      writer (self w) = None -> target_path (self w) = Some p ->
      convertible (scale_box (self w)) pix ->
      grabs_fit (scale_box (self w)) acts ->
      let f0 := converted (pix_width pix) (pix_height pix) (scale_box (self w)) in
      let g := geometry f0 in
      let w' := run (Tick pix true :: acts) w in
      exists evs,
        log w' = log w ++ evs
        /\ written evs
           = f0 :: map (fun c => if size_eqb (geometry c) g then c
                                 else Resize c g INTER_AREA)
                       (session_frames (scale_box (self w)) acts)
        /\ List.length (written evs) = S (List.length (filter is_tick acts))
        /\ Forall (fun f => geometry f = g) (written evs)
        /\ target_size (self w') = Some g)
  /\ (forall (pix : QPixmap) (opens : bool) (w : world) (vw : VideoWriter) (g : Z * Z),
      screen (self w) = true -> recording (self w) = true ->
      writer (self w) = Some vw -> target_size (self w) = Some g ->
      0 < fst g -> 0 < snd g ->
      convertible (scale_box (self w)) pix ->
      let c := converted (pix_width pix) (pix_height pix) (scale_box (self w)) in
      let f := if size_eqb (geometry c) g then c else Resize c g INTER_AREA in
      _on_tick pix opens w
      = (Ret tt,
         {| self := self w;
            log := log w ++ [EvGrab; EvPreview (keep_ratio (self w)); EvWrite vw f] |})
      /\ geometry f = g).
Proof.
  split; [ | split].
  - intros acts w Hin Hw.
    destruct (session_fresh acts w Hin Hw) as (evs & Hlog & Hm).
    exists evs. split; [assumption | ].
    destruct (written evs) as [ | f0 rest]; [apply Hm | ].
    destruct Hm as (Hc & Ht & Hrest & _).
    split; [assumption | ]. split; [assumption | ].
    constructor.
    + split; [reflexivity | ]. exists f0. split; [assumption | ].
      rewrite size_eqb_refl. reflexivity.
    + eapply Forall_impl; [ | exact Hrest].
      intros f (c & Hcc & Hfc). split.
      * rewrite Hfc. apply geometry_fit.
      * exists c. split; assumption.
  - intros pix acts w p Hin Hs Hr Hw Hp Hpix Hfit f0 g w'.
    destruct (session_opened pix acts w p Hin Hs Hr Hw Hp Hpix)
      as (evs & Hlog & Hg & _ & _ & Ht & Hall & Hex).
    fold f0 in Hlog, Hg. fold g in Hg. rewrite <- Hg in Ht, Hall, Hex.
    specialize (Hex Hfit). fold w' in Hlog, Ht.
    eexists. split; [exact Hlog | ].
    rewrite written_first, Hex.
    split; [reflexivity | ]. split; [ | split].
    + cbn [List.length]. rewrite length_map, session_frames_length. reflexivity.
    + constructor; [reflexivity | ]. rewrite <- Hex. exact Hall.
    + exact Ht.
  - intros pix opens w vw g Hs Hr Hw Ht Hg1 Hg2 Hpix c f.
    split; [ | apply geometry_fit].
    rewrite on_tick_unfold, Hs, Hr. cbn [negb].
    rewrite convert_ok by assumption. cbn [fst].
    unfold record_frame. cbn [after_preview self log]. rewrite Hw, Ht.
    unfold fits. rewrite (proj2 (nonempty_iff g) (conj Hg1 Hg2)), orb_true_r.
    rewrite <- app_assoc. reflexivity.
Qed.

Lemma geometry_invariant_witness :
  let acts := [Tick pix_1080p true; SetScale Half; Tick pix_1080p true] in
  exists evs,
    log (run (Tick pix_1080p true :: acts) w_recording) = log w_recording ++ evs
    /\ written evs
       = [converted 1920 1080 Original;
          converted 1920 1080 Original;
          Resize (converted 1920 1080 Half) (1920, 1080) INTER_AREA]
    /\ Forall (fun f => geometry f = (1920, 1080)) (written evs).
Proof.
  intro acts.
  destruct (proj1 (proj2 geometry_invariant) pix_1080p acts w_recording "out.mp4"%string)
    as (evs & Hlog & Hwr & _ & Hall & _).
  - reflexivity.
  - reflexivity.
  - reflexivity.
  - reflexivity.
  - reflexivity.
  - unfold convertible; cbn; lia.
  - unfold acts; cbn [grabs_fit]; unfold convertible; cbn; lia.
  - exists evs. split; [exact Hlog | ]. split; [exact Hwr | exact Hall].
Defined.




(** C3.  The writer is opened lazily and once.  In any session (ticks and
    changes of the controls, starting with no writer), as long as no frame
    has been written no writer has opened; and if frames were written, the
    log reads: attempts that did not open and no write, then the
    construction of one writer that opens, immediately followed by the
    write of the first frame, then no further construction; that writer
    has the first frame's size and the chosen path.  When the first tick
    already succeeds (its grab being convertible), the writer is built in
    that tick with the scaled size of its grab and the frame rate of the
    spin box, and with all grabs convertible one frame is written per
    tick.  In the scenario of 40 ticks of
    1920 x 1080 pixels at 20 fps and scale 1/2 to [out.mp4], the log holds
    one writer of size (960, 540) at 20 fps and 40 written frames, each of
    size (960, 540). *)
Theorem lazy_single_open :
  (forall (acts : list action) (w : world),
      forallb in_session acts = true -> writer (self w) = None ->
      exists evs,
        log (run acts w) = log w ++ evs
        /\ match written evs with
           | [] => filter vw_isOpened (open_calls evs) = []
           | f0 :: _ =>
               exists vw,
                 opened_once evs vw f0
                 /\ filter vw_isOpened (open_calls evs) = [vw]
                 /\ vw_frameSize vw = geometry f0
                 /\ target_path (self w) = Some (vw_filename vw)
           end)
  /\ (forall (pix : QPixmap) (acts : list action) (w : world) (p : Path),
      forallb in_session acts = true ->
      screen (self w) = true -> recording (self w) = true ->
      writer (self w) = None -> target_path (self w) = Some p ->
      convertible (scale_box (self w)) pix ->
      let g := (scaled (pix_width pix) (scale_box (self w)),
                scaled (pix_height pix) (scale_box (self w))) in
      let c := converted (pix_width pix) (pix_height pix) (scale_box (self w)) in
      let vw := {| vw_filename := p; vw_fourcc := fourcc_of_path p;
                   vw_fps := fps_box (self w); vw_frameSize := g;
                   vw_isOpened := true |} in
      let w' := run (Tick pix true :: acts) w in
      exists evs,
        log w' = log w ++ [EvGrab; EvPreview (keep_ratio (self w));
                           EvOpen vw; EvWrite vw c] ++ evs
        /\ geometry c = g
        /\ open_calls evs = []
        /\ writer (self w') = Some vw
        /\ target_size (self w') = Some g
        /\ Forall (fun f => geometry f = g) (written evs)
        /\ (grabs_fit (scale_box (self w)) acts ->
            List.length (written evs) = List.length (filter is_tick acts)))
  /\ (let w := run (SetFps 20 :: SetScale Half :: Start "out.mp4"
                      :: repeat (Tick pix_1080p true) 40) (init true) in
      open_calls (log w)
        = [{| vw_filename := "out.mp4"; vw_fourcc := VideoWriter_fourcc "m" "p" "4" "v";
              vw_fps := 20; vw_frameSize := (960, 540); vw_isOpened := true |}]
      /\ List.length (written (log w)) = 40%nat
      /\ Forall (fun f => geometry f = (960, 540)) (written (log w))).
Proof.
  split; [ | split].
  - intros acts w Hin Hw.
    destruct (session_fresh acts w Hin Hw) as (evs & Hlog & Hm).
    exists evs. split; [assumption | ].
    destruct (written evs) as [ | f0 rest].
    + apply filter_all_false. apply Hm.
    + destruct Hm as (_ & _ & _ & vw & Honce & Hsz & Hpath & _).
      exists vw. repeat split; try assumption.
      apply (opened_once_count evs vw f0). assumption.
  - intros pix acts w p Hin Hs Hr Hw Hp Hpix g c vw w'.
    destruct (session_opened pix acts w p Hin Hs Hr Hw Hp Hpix)
      as (evs & Hlog & Hg & Hop & Hwf & Htf & Hall & Hex).
    exists evs. repeat split; try assumption.
    intro Hfit. rewrite (Hex Hfit), length_map. apply session_frames_length.
  - vm_compute. repeat split. repeat constructor.
Qed.

Lemma lazy_single_open_witness :
  let acts := repeat (Tick pix_1080p true) 39 in
  let w := run [SetScale Half; Start "out.mp4"] (init true) in
  exists evs,
    log (run (Tick pix_1080p true :: acts) w)
    = log w ++ [EvGrab; EvPreview true;
                EvOpen {| vw_filename := "out.mp4"; vw_fourcc := 1983148141;
                          vw_fps := 20; vw_frameSize := (960, 540);
                          vw_isOpened := true |};
                EvWrite {| vw_filename := "out.mp4"; vw_fourcc := 1983148141;
                           vw_fps := 20; vw_frameSize := (960, 540);
                           vw_isOpened := true |}
                        (converted 1920 1080 Half)] ++ evs
    /\ open_calls evs = []
    /\ List.length (written evs) = 39%nat.
Proof.
  intros acts w.
  assert (Hpix : convertible Half pix_1080p) by (unfold convertible; cbn; lia).
  destruct (proj1 (proj2 lazy_single_open) pix_1080p acts w "out.mp4"%string)
    as (evs & Hlog & _ & Hop & _ & _ & _ & Hcount).
  - reflexivity.
  - reflexivity.
  - reflexivity.
  - reflexivity.
  - reflexivity.
  - exact Hpix.
  - exists evs. split; [exact Hlog | ]. split; [exact Hop | ].
    apply Hcount. apply grabs_fit_repeat. exact Hpix.
Defined.

(** C4.  In any idle state the application can reach, pressing start and
    cancelling the dialog (the dialog returns the empty path) changes no
    field of the widget: the timer is not armed, [recording] is still
    false, no writer exists; the only trace is that the dialog was shown. *)
Theorem start_cancelled_stays_idle (has_screen : bool) (acts : list action) :
  let w := run acts (init has_screen) in
  recording (self w) = false ->
  _start_recording "" w = (Ret tt, {| self := self w; log := log w ++ [EvDialog] |})
  /\ timer_active (timer (self w)) = false
  /\ writer (self w) = None
  /\ target_path (self w) = None.
Proof.
  intros w Hidle.
  pose proof (run_consistent acts (init has_screen) (consistent_init has_screen))
    as (Hf & Ht & _).
  fold w in Hf, Ht. rewrite Hidle in Ht. destruct Ht as (Ha & Hw & Hp & Hs).
  repeat split; try assumption.
  rewrite start_recording_unfold by lia. rewrite Hidle. cbn [String.eqb].
  do 2 f_equal.
  destruct (self w) as [tm rec sc lft wr tp ts bs bp fps sb kr].
  cbn in Hp. subst tp. reflexivity.
Qed.

Lemma start_cancelled_stays_idle_witness :
  let w := run [Start "out.mp4"; Tick pix_1080p true; Stop false] (init true) in
  recording (self w) = false /\
  _start_recording "" w = (Ret tt, {| self := self w; log := log w ++ [EvDialog] |}).
Proof.
  intro w. split; [reflexivity | ].
  apply (start_cancelled_stays_idle true
           [Start "out.mp4"; Tick pix_1080p true; Stop false]).
  reflexivity.
Defined.

(** C5.  Closing the window while recording runs the whole stop sequence
    before the base class tears the window down: the timer is stopped, the
    writer (if one was opened) is released, and every session field is
    reset, whether or not the release raises. *)
Theorem close_while_recording_stops (release_raises : bool) (w : world) :
  recording (self w) = true ->
  exists w',
    closeEvent release_raises w = (Ret tt, w')
    /\ log w' = log w ++ EvTimerStop :: release_events (self w) ++ [EvSuperClose]
    /\ timer_active (timer (self w')) = false
    /\ recording (self w') = false
    /\ writer (self w') = None
    /\ target_path (self w') = None
    /\ target_size (self w') = None.
Proof.
  intro Hrec. rewrite close_event_unfold, Hrec.
  eexists. split; [reflexivity | ]. cbn. repeat split.
Qed.

Lemma close_while_recording_stops_witness :
  let w := run [Start "out.mp4"; Tick pix_1080p true] (init true) in
  recording (self w) = true /\
  exists w', closeEvent true w = (Ret tt, w') /\ writer (self w') = None.
Proof.
  intro w. split; [reflexivity | ].
  destruct (close_while_recording_stops true w) as (w' & H1 & _ & _ & _ & H5 & _).
  - reflexivity.
  - exists w'. split; assumption.
Defined.

(** C6.  [_release_writer] never raises, although the release it wraps may;
    with no writer it does nothing at all; and calling it a second time,
    after any first call, is a no-op. *)
Theorem release_writer_idempotent (r1 r2 : bool) (w : world) (vw : VideoWriter) :
  fst (release true vw w) = Exc Cv2Error
  /\ fst (_release_writer r1 w) = Ret tt
  /\ snd (_release_writer r1 w)
     = match writer (self w) with
       | Some v => {| self := set_writer None (self w);
                      log := log w ++ [EvRelease v] |}
       | None => w
       end
  /\ _release_writer r2 (snd (_release_writer r1 w))
     = (Ret tt, snd (_release_writer r1 w)).
Proof.
  repeat split.
  - rewrite release_writer_unfold. reflexivity.
  - rewrite release_writer_unfold. reflexivity.
  - rewrite !release_writer_unfold. cbn [fst snd].
    destruct (writer (self w)) as [v | ] eqn:Ew; [reflexivity | ].
    rewrite Ew. reflexivity.
Qed.

(** C7.  When the writer that was just built reports that it is not open,
    [_init_writer] raises [RuntimeError]; the tick that called it (one
    whose grab is convertible, so that the conversion reaches the
    construction of the writer) ends with that exception, the widget keeps
    no writer, and no frame is written. *)
Theorem cannot_open_is_raised
        (pix : QPixmap) (w : world) (p : Path) (frame_w frame_h fps : Z) :
  screen (self w) = true -> recording (self w) = true ->
  writer (self w) = None -> target_path (self w) = Some p ->
  convertible (scale_box (self w)) pix ->
  fst (_init_writer false frame_w frame_h fps p w)
    = Exc (RuntimeError "VideoWriter cannot be opened")
  /\ exists vw,
       _on_tick pix false w
       = (Exc (RuntimeError "VideoWriter cannot be opened"),
          {| self := self w;
             log := log w ++ [EvGrab; EvPreview (keep_ratio (self w)); EvOpen vw] |})
       /\ vw_isOpened vw = false
       /\ written (log (snd (_on_tick pix false w))) = written (log w).
Proof.
  intros Hs Hr Hw Hp Hpix. split; [reflexivity | ].
  rewrite on_tick_unfold, Hs, Hr. cbn [negb].
  rewrite convert_ok by assumption. cbn [fst].
  unfold record_frame. cbn [after_preview self log]. rewrite Hw, Hp.
  eexists. split; [ | split].
  - rewrite <- app_assoc. reflexivity.
  - reflexivity.
  - cbn [snd log]. unfold written. rewrite !flat_map_app. cbn.
    rewrite !app_nil_r. reflexivity.
Qed.

Lemma cannot_open_is_raised_witness :
  fst (_on_tick pix_1080p false w_recording)
  = Exc (RuntimeError "VideoWriter cannot be opened")
  /\ writer (self (snd (_on_tick pix_1080p false w_recording))) = None.
Proof.
  destruct (cannot_open_is_raised pix_1080p w_recording "out.mp4"%string 1920 1080 20)
    as (_ & vw & E & _ & _);
    try reflexivity.
  - unfold convertible; cbn; lia.
  - rewrite E. split; reflexivity.
Defined.

(** C8.  The codec is chosen by the extension of the output path, compared
    without regard to case: [mp4] gives the code of [mp4v]; [avi], like
    every other extension or none at all, gives the code of [XVID]; the two
    codes differ.  The writer is constructed with the code so chosen. *)
Theorem codec_from_extension
        (pre stem ext : string) (q : Path) (opens : bool)
        (frame_w frame_h fps : Z) (w : world) :
  file_form pre stem ext ->
  let p := (pre ++ stem ++ "." ++ ext)%string in
  let mp4v := VideoWriter_fourcc "m" "p" "4" "v" in
  let xvid := VideoWriter_fourcc "X" "V" "I" "D" in
  suffix p = ("." ++ ext)%string
  /\ fourcc_of_path p = (if String.eqb (lower ext) "mp4" then mp4v else xvid)
  /\ fourcc_of_path (pre ++ stem ++ ".avi")%string = xvid
  /\ fourcc_of_path q
     = (if String.eqb (lower (suffix q)) ".mp4" then mp4v else xvid)
  /\ mp4v = 1983148141 /\ xvid = 1145656920
  /\ log (snd (_init_writer opens frame_w frame_h fps p w))
     = log w ++ [EvOpen {| vw_filename := p; vw_fourcc := fourcc_of_path p;
                           vw_fps := fps; vw_frameSize := (frame_w, frame_h);
                           vw_isOpened := opens |}].
Proof.
  intros Hf p mp4v xvid. repeat split.
  - apply suffix_of_file. assumption.
  - apply fourcc_of_file. assumption.
  - destruct Hf as (Hpre & Hstem & Hss & _).
    apply (fourcc_of_file pre stem "avi"). repeat split; assumption || discriminate.
  - unfold _init_writer, bind, emit, raise, ret. destruct opens; reflexivity.
Qed.

Lemma codec_from_extension_witness :
  fourcc_of_path "/home/user/Clip.MP4"%string = 1983148141
  /\ fourcc_of_path "/home/user/Clip.avi"%string = 1145656920.
Proof.
  destruct (codec_from_extension "/home/user/" "Clip" "MP4" "notes"%string true 960 540 20
              (init true)) as (_ & H1 & H2 & _).
  - repeat split; try discriminate; try reflexivity. right. exists "/home/user"%string.
    reflexivity.
  - split; [exact H1 | exact H2].
Defined.

(** C9.  A start that goes through arms the timer with
    [1000 // max(1, fps)] milliseconds: the value of the spin box is first
    raised to at least 1, and the quotient is truncated. *)
Theorem start_arms_timer (chosen : string) (w : world) :
  recording (self w) = false -> chosen <> EmptyString ->
  fps_box (self w) < 2 ^ 53 ->
  let ms := 1000 / Z.max 1 (fps_box (self w)) in
  exists w',
    _start_recording chosen w = (Ret tt, w')
    /\ timer (self w') = {| timer_active := true; timer_interval := ms |}
    /\ recording (self w') = true
    /\ target_path (self w') = Some chosen
    /\ log w' = log w ++ [EvDialog; EvTimerStart ms].
Proof.
  intros Hidle Hch Hfps ms.
  rewrite start_recording_unfold by assumption. rewrite Hidle.
  replace (String.eqb chosen EmptyString) with false
    by (symmetry; apply String.eqb_neq; assumption).
  eexists. split; [reflexivity | ]. repeat split.
Qed.

Lemma start_arms_timer_witness :
  exists w',
    _start_recording "out.mp4" (exec (SetFps 30) (init true)) = (Ret tt, w')
    /\ timer (self w') = {| timer_active := true; timer_interval := 33 |}.
Proof.
  destruct (start_arms_timer "out.mp4" (exec (SetFps 30) (init true)))
    as (w' & E & T & _).
  - reflexivity.
  - discriminate.
  - cbn. lia.
  - exists w'. split; [exact E | exact T].
Defined.

(** C10.  Pressing start while a recording is running returns at once: the
    widget and the log are exactly what they were, so no dialog was shown
    and the timer was not armed again. *)
Theorem start_while_recording_is_noop (chosen : string) (w : world) :
  recording (self w) = true ->
  _start_recording chosen w = (Ret tt, w).
Proof.
  intro Hrec. unfold _start_recording, bind, get. rewrite Hrec. reflexivity.
Qed.

Lemma start_while_recording_is_noop_witness :
  recording (self w_recording) = true /\
  _start_recording "other.avi" w_recording = (Ret tt, w_recording).
Proof.
  split; [reflexivity | ].
  apply (start_while_recording_is_noop "other.avi" w_recording). reflexivity.
Defined.

(* ===================================================================== *)
(** ** Steps and what every reachable state satisfies *)
(* ===================================================================== *)

Lemma exec_tick_step (pix : QPixmap) (opens : bool) (w : world) :
  tick_step pix opens w (exec (Tick pix opens) w).
Proof.
  unfold exec, slot. rewrite on_tick_unfold.
  destruct (screen (self w)) eqn:Es; cbn [negb]; [ | apply step_no_screen; assumption].
  destruct (recording (self w)) eqn:Er; cbn [negb]; [ | apply step_idle; assumption].
  pose proof (convert_pure pix (after_preview w)) as Hp.
  destruct (convert pix (after_preview w)) as [[c | e] w1] eqn:Ec;
    cbn [fst snd] in *; subst w1;
    [ | apply step_convert_raises with (e := e); assumption].
  unfold record_frame. cbn [after_preview self log].
  destruct (writer (self w)) as [vw | ] eqn:Ew.
  - destruct (target_size (self w)) as [g | ] eqn:Et; cbn [snd].
    + destruct (fits g c) eqn:Ef; cbn [snd].
      * rewrite <- app_assoc. apply step_writes with (c := c); assumption.
      * apply step_resize_raises with (c := c) (vw := vw) (g := g); assumption.
    + apply step_no_size with (c := c) (vw := vw); assumption.
  - destruct (target_path (self w)) as [p | ] eqn:Ep; cbn [snd].
    + destruct opens; cbn [snd]; rewrite <- app_assoc.
      * apply step_open_writes with (c := c); auto.
      * apply step_open_fails with (c := c); auto.
    + apply step_no_path with (c := c); assumption.
Qed.

Lemma released_app (a b : list event) : released (a ++ b) = released a ++ released b.
Proof. apply flat_map_app. Qed.

Lemma writes_app (a b : list event) : writes (a ++ b) = writes a ++ writes b.
Proof. apply flat_map_app. Qed.

Lemma opened_ok_app (a b : list event) :
  opened_ok (a ++ b) = opened_ok a ++ opened_ok b.
Proof. unfold opened_ok. rewrite open_calls_app. apply filter_app. Qed.

Lemma channels_fit (g : Z * Z) (c : ndarray) : channels (fit g c) = channels c.
Proof.
  unfold fit. destruct (size_eqb (geometry c) g); [reflexivity | ].
  destruct g as [gw gh]. unfold channels. cbn [shape].
  destruct (shape c) as [[h0 w0] c0]. reflexivity.
Qed.

Lemma convert_channels (pix : QPixmap) (w w' : world) (c : ndarray) :
  convert pix w = (Ret c, w') -> channels c = 3.
Proof. intro H. apply (convert_returns pix w w' c H). Qed.

Lemma interval_bounds (fps : Z) :
  1 <= fps <= 60 -> 16 <= 1000 / Z.max 1 fps <= 1000.
Proof.
  intro H. split.
  - apply Z.div_le_lower_bound; lia.
  - apply Z.div_le_upper_bound; lia.
Qed.

Lemma sound_init (b : bool) : sound (init b).
Proof.
  split; [apply consistent_init | ].
  split; [ | split; [reflexivity | constructor]].
  unfold ui_follows. cbn. repeat split; discriminate.
Qed.

(** Conjunctions only; the fields of a world; the projections of a log. *)
Ltac conjs := repeat match goal with |- _ /\ _ => split end.

Ltac fields :=
  cbn [self log timer recording screen last_frame_time writer target_path
       target_size btn_start_enabled btn_stop_enabled fps_box scale_box
       keep_ratio timer_active timer_interval set_target_path set_writer
       set_target_size started stopped after_preview negb fst snd].

Ltac ledgers :=
  rewrite ?released_app, ?opened_ok_app, ?writes_app;
  cbn [released opened_ok open_calls writes flat_map filter app
       writer_for vw_isOpened release_events held];
  rewrite ?app_nil_r.

Lemma exec_sound (a : action) (w : world) : sound w -> sound (exec a w).
Proof.
  intros (Hc & Hu & Hl & Hw).
  pose proof (exec_consistent a w Hc) as Hc'.
  split; [exact Hc' | ]. clear Hc'.
  pose proof Hc as (Hf & Ht & Hwr).
  pose proof Hu as (Hb1 & Hb2 & Hta & Hlf & Hti).
  assert (Hsame : ui_follows (self w) /\ ledger w /\ Forall write_ok (writes (log w)))
    by (conjs; assumption).
  unfold ledger in Hl.
  destruct a as [chosen | r | r | pix opens | v | i | b]; unfold exec, slot.
  - rewrite start_recording_unfold by lia. cbn [snd].
    destruct (recording (self w)) eqn:Er; [exact Hsame | ].
    destruct (String.eqb chosen EmptyString).
    + unfold ui_follows, ledger, held. fields. rewrite Er. ledgers.
      conjs; try assumption; try discriminate.
    + unfold ui_follows, ledger, held. fields. ledgers.
      pose proof (interval_bounds (fps_box (self w)) Hf).
      conjs; try assumption; try reflexivity; try (intros _; assumption).
  - rewrite stop_recording_unfold. cbn [snd].
    destruct (recording (self w)) eqn:Er; [ | exact Hsame].
    unfold ui_follows, ledger, held, release_events in *. fields.
    destruct (writer (self w)) as [vw | ]; ledgers; rewrite ?app_nil_r in Hl;
      conjs; try assumption; try reflexivity; try discriminate.
  - rewrite close_event_unfold. cbn [snd].
    destruct (recording (self w)) eqn:Er.
    + unfold ui_follows, ledger, held, release_events in *. fields.
      destruct (writer (self w)) as [vw | ]; ledgers; rewrite ?app_nil_r in Hl;
        conjs; try assumption; try reflexivity; try discriminate.
    + unfold ui_follows, ledger, held in *. fields. rewrite Er. ledgers.
      conjs; try assumption; try discriminate.
  - fold (slot (Tick pix opens)). fold (exec (Tick pix opens) w).
    destruct (exec_tick_step pix opens w)
      as [Hs | Hs Hr | e Hs Hr Hcv | c Hs Hr Hcv Hn Hp | c p Hs Hr Hcv Hn Hp Ho
         | c p Hs Hr Hcv Hn Hp Ho | c vw Hs Hr Hcv Hsm Hsz
         | c vw g Hs Hr Hcv Hsm Hsz Hfit | c vw g Hs Hr Hcv Hsm Hsz Hfit].
    1:{ exact Hsame. }
    1-4,6,7: (unfold ui_follows, ledger, held in *; fields; ledgers;
          conjs; assumption).
    + (* the writer opens and receives its first frame *)
      unfold ui_follows, ledger, held in *. fields. ledgers.
      rewrite Hn in Hl. rewrite Hl, ?app_nil_r.
      conjs; try assumption; try reflexivity.
      apply Forall_app. split; [assumption | ]. constructor; [ | constructor].
      unfold write_ok. conjs; try reflexivity.
      cbn [snd]. eapply convert_channels. exact Hcv.
    + (* a further frame *)
      unfold ui_follows, ledger, held in *. fields. ledgers.
      conjs; try assumption.
      apply Forall_app. split; [assumption | ]. constructor; [ | constructor].
      rewrite Hsm in Hwr. destruct Hwr as [Hts Hop].
      unfold write_ok. conjs; cbn [fst snd].
      * assumption.
      * rewrite geometry_fit. congruence.
      * rewrite channels_fit. eapply convert_channels. exact Hcv.
  - exact Hsame.
  - exact Hsame.
  - exact Hsame.
Qed.

Lemma run_sound (acts : list action) (w : world) : sound w -> sound (run acts w).
Proof.
  revert w. induction acts as [ | a acts IH]; intros w H; [assumption | ].
  rewrite run_cons. apply IH, exec_sound, H.
Qed.

(* ===================================================================== *)
(** ** Further properties of the methods *)
(* ===================================================================== *)

(** X1.  In every state reached from [__init__], the start button is
    enabled exactly when no recording runs, the stop button exactly when
    one does, and the timer is active exactly when one does. *)
Theorem ui_matches_recording (has_screen : bool) (acts : list action) :
  let s := self (run acts (init has_screen)) in
  btn_start_enabled s = negb (recording s)
  /\ btn_stop_enabled s = recording s
  /\ timer_active (timer s) = recording s.
Proof.
  intro s.
  destruct (run_sound acts (init has_screen) (sound_init has_screen))
    as (_ & (H1 & H2 & H3 & _) & _).
  conjs; assumption.
Qed.

(** X2.  Whenever a recording runs in a state reached from [__init__], the
    timer interval lies between 16 and 1000 milliseconds: the spin box
    keeps the frame rate between 1 and 60, so the timer is never armed
    with a zero interval. *)
Theorem armed_interval_bounds (has_screen : bool) (acts : list action) :
  let s := self (run acts (init has_screen)) in
  recording s = true -> 16 <= timer_interval (timer s) <= 1000.
Proof.
  intros s Hr.
  destruct (run_sound acts (init has_screen) (sound_init has_screen))
    as (_ & (_ & _ & _ & _ & H) & _).
  apply H. exact Hr.
Qed.

Lemma armed_interval_bounds_witness :
  let s := self (run [SetFps 75; Start "out.mp4"] (init true)) in
  recording s = true /\ 16 <= timer_interval (timer s) <= 1000.
Proof.
  intro s. split; [reflexivity | ].
  apply (armed_interval_bounds true [SetFps 75; Start "out.mp4"]). reflexivity.
Defined.

(** X3.  Writers are never lost: in every state reached from [__init__],
    the writers that opened are, in order, the ones released so far
    followed by the one the widget holds; once the window has been closed,
    every writer that opened has been released. *)
Theorem writers_released_or_held
        (has_screen : bool) (acts : list action) (release_raises : bool) :
  let w := run acts (init has_screen) in
  let w' := exec (Close release_raises) w in
  opened_ok (log w) = released (log w) ++ held (self w)
  /\ opened_ok (log w') = released (log w')
  /\ writer (self w') = None.
Proof.
  intros w w'.
  pose proof (run_sound acts (init has_screen) (sound_init has_screen)) as Hs.
  fold w in Hs. pose proof (exec_sound (Close release_raises) w Hs) as Hs'.
  fold w' in Hs'.
  destruct Hs as (_ & _ & Hl & _). destruct Hs' as (_ & _ & Hl' & _).
  assert (Hnone : writer (self w') = None).
  { unfold w', exec, slot. rewrite close_event_unfold. cbn [snd].
    destruct (recording (self w)) eqn:Er; [reflexivity | ].
    pose proof (run_consistent acts (init has_screen) (consistent_init has_screen))
      as (_ & Ht & _).
    fold w in Ht. rewrite Er in Ht. apply Ht. }
  conjs; try assumption.
  unfold ledger, held in Hl'. rewrite Hnone, app_nil_r in Hl'. exact Hl'.
Qed.

(** X4.  In every run from [__init__], each frame handed to [writer.write]
    goes to a writer that reported open, has exactly the frame size that
    writer was constructed with, and has three channels. *)
Theorem writes_fit_writer (has_screen : bool) (acts : list action) :
  Forall (fun vf => vw_isOpened (fst vf) = true
                    /\ geometry (snd vf) = vw_frameSize (fst vf)
                    /\ channels (snd vf) = 3)
         (writes (log (run acts (init has_screen)))).
Proof.
  destruct (run_sound acts (init has_screen) (sound_init has_screen))
    as (_ & _ & _ & H).
  exact H.
Qed.

(** X5.  [_stop_recording] never raises, whatever the release does; it
    always leaves the widget not recording; and a second stop changes
    nothing, neither the widget nor the log. *)
Theorem stop_recording_idempotent (r1 r2 : bool) (w : world) :
  let w1 := snd (_stop_recording r1 w) in
  fst (_stop_recording r1 w) = Ret tt
  /\ recording (self w1) = false
  /\ _stop_recording r2 w1 = (Ret tt, w1).
Proof.
  intro w1. subst w1. rewrite !stop_recording_unfold. cbn [fst snd].
  destruct (recording (self w)) eqn:Er.
  - cbn [self stopped recording]. conjs; reflexivity.
  - rewrite Er. conjs; reflexivity.
Qed.

(** X6.  Start followed by stop is a round trip: from an idle state reached
    from [__init__], choosing a path and stopping again restores every
    field of the widget except the interval remembered by the (stopped)
    timer; the log gains the dialog, the timer start and the timer stop,
    and no writer is constructed or released. *)
Theorem start_stop_round_trip
        (has_screen : bool) (acts : list action) (chosen : string)
        (release_raises : bool) :
  let w := run acts (init has_screen) in
  let ms := 1000 / Z.max 1 (fps_box (self w)) in
  recording (self w) = false -> chosen <> EmptyString ->
  run [Start chosen; Stop release_raises] w
  = {| self := set_timer {| timer_active := false; timer_interval := ms |} (self w);
       log := log w ++ [EvDialog; EvTimerStart ms; EvTimerStop] |}.
Proof.
  intros w ms Hidle Hch.
  destruct (run_sound acts (init has_screen) (sound_init has_screen))
    as (Hc & (Hb1 & Hb2 & Hta & Hlf & _) & _).
  fold w in Hc, Hb1, Hb2, Hta, Hlf.
  destruct Hc as (Hf & Ht & _). rewrite Hidle in Ht, Hb1, Hb2.
  destruct Ht as (_ & Hw & Hp & Hs).
  cbn [run fold_left]. unfold exec at 2. unfold slot.
  rewrite start_recording_unfold by lia. rewrite Hidle.
  replace (String.eqb chosen EmptyString) with false
    by (symmetry; apply String.eqb_neq; assumption).
  cbv zeta. fold ms. cbn [snd].
  unfold exec, slot. rewrite stop_recording_unfold. cbn [snd self log started recording].
  unfold release_events. cbn [started writer]. rewrite Hw.
  rewrite <- app_assoc. cbn [app]. f_equal.
  unfold stopped, set_timer. cbn.
  destruct (self w) as [tm rec sc lft wr tp ts bs bp fps sb kr].
  cbn in *. subst. reflexivity.
Qed.

Lemma start_stop_round_trip_witness :
  let w := run [SetScale Half] (init true) in
  recording (self w) = false /\
  run [Start "out.avi"; Stop true] w
  = {| self := set_timer {| timer_active := false; timer_interval := 50 |} (self w);
       log := log w ++ [EvDialog; EvTimerStart 50; EvTimerStop] |}.
Proof.
  intro w. split; [reflexivity | ].
  apply (start_stop_round_trip true [SetScale Half] "out.avi" true).
  - reflexivity.
  - discriminate.
Defined.

Lemma quiet_not_written (evs : list event) :
  forallb quiet evs = true ->
  written evs = [] /\ open_calls evs = [] /\ released evs = [].
Proof.
  induction evs as [ | e evs IH]; [repeat split | ].
  cbn [forallb]. intro H. apply andb_true_iff in H. destruct H as [He Hr].
  destruct (IH Hr) as (H1 & H2 & H3).
  destruct e; try discriminate; cbn; conjs; assumption.
Qed.

Lemma exec_idle (a : action) (w : world) :
  recording (self w) = false -> is_start a = false ->
  recording (self (exec a w)) = false
  /\ exists evs, log (exec a w) = log w ++ evs /\ forallb quiet evs = true.
Proof.
  intros Hidle Ha.
  destruct a as [chosen | r | r | pix opens | v | i | b]; try discriminate;
    unfold exec, slot.
  - rewrite stop_recording_unfold, Hidle. cbn [snd]. split; [assumption | ].
    exists []. rewrite app_nil_r. split; reflexivity.
  - rewrite close_event_unfold, Hidle. cbn [snd self log]. split; [assumption | ].
    exists [EvSuperClose]. split; reflexivity.
  - fold (slot (Tick pix opens)). fold (exec (Tick pix opens) w).
    destruct (exec_tick_step pix opens w)
      as [Hs | Hs Hr | e Hs Hr Hcv | c Hs Hr Hcv Hn Hp | c p Hs Hr Hcv Hn Hp Ho
         | c p Hs Hr Hcv Hn Hp Ho | c vw Hs Hr Hcv Hsm Hsz
         | c vw g Hs Hr Hcv Hsm Hsz Hfit | c vw g Hs Hr Hcv Hsm Hsz Hfit];
      try congruence.
    + split; [assumption | ]. exists []. rewrite app_nil_r. split; reflexivity.
    + split; [assumption | ].
      exists [EvGrab; EvPreview (keep_ratio (self w))]. split; reflexivity.
  - cbn. split; [assumption | ]. exists []. rewrite app_nil_r. split; reflexivity.
  - cbn. split; [assumption | ]. exists []. rewrite app_nil_r. split; reflexivity.
  - cbn. split; [assumption | ]. exists []. rewrite app_nil_r. split; reflexivity.
Qed.

(** X7.  Nothing is recorded unless start is pressed: from any state that
    is not recording, a run without a start stays not recording, and all
    it does to the outside is grab the screen, set the preview, or pass the
    close on; it shows no dialog, arms no timer, constructs no writer,
    writes no frame and releases nothing. *)
Theorem nothing_recorded_without_start (acts : list action) (w : world) :
  recording (self w) = false ->
  forallb (fun a => negb (is_start a)) acts = true ->
  recording (self (run acts w)) = false
  /\ exists evs,
       log (run acts w) = log w ++ evs
       /\ forallb quiet evs = true
       /\ written evs = [] /\ open_calls evs = [] /\ released evs = [].
Proof.
  revert w. induction acts as [ | a acts IH]; intros w Hidle Hacts.
  - split; [assumption | ]. exists []. cbn [run fold_left].
    rewrite app_nil_r. conjs; reflexivity.
  - cbn [forallb] in Hacts. apply andb_true_iff in Hacts. destruct Hacts as [Ha Hacts].
    apply negb_true_iff in Ha.
    destruct (exec_idle a w Hidle Ha) as (Hidle1 & evs1 & Hl1 & Hq1).
    rewrite run_cons.
    destruct (IH (exec a w) Hidle1 Hacts) as (Hfin & evs2 & Hl2 & Hq2 & _).
    split; [assumption | ].
    exists (evs1 ++ evs2).
    assert (Hq : forallb quiet (evs1 ++ evs2) = true)
      by (rewrite forallb_app, Hq1, Hq2; reflexivity).
    split; [rewrite Hl2, Hl1, app_assoc; reflexivity | ].
    split; [exact Hq | apply quiet_not_written; exact Hq].
Qed.

Lemma nothing_recorded_without_start_witness :
  let acts := [Tick pix_1080p true; SetScale Third; Stop true; Tick pix_1080p false;
               Close false] in
  exists evs,
    log (run acts (init true)) = evs /\ written evs = [] /\ open_calls evs = [].
Proof.
  intro acts.
  destruct (nothing_recorded_without_start acts (init true))
    as (_ & evs & Hl & _ & Hw & Ho & _).
  - reflexivity.
  - reflexivity.
  - exists evs. conjs; assumption.
Defined.

Lemma exec_no_screen (a : action) (w : world) :
  consistent (self w) -> screen (self w) = false ->
  screen (self (exec a w)) = false
  /\ exists evs, log (exec a w) = log w ++ evs
                 /\ forallb (fun e => negb (captures e)) evs = true.
Proof.
  intros (Hf & _) Hs.
  destruct a as [chosen | r | r | pix opens | v | i | b]; unfold exec, slot.
  - rewrite start_recording_unfold by lia. cbn [snd].
    destruct (recording (self w)).
    + split; [assumption | ]. exists []. rewrite app_nil_r. split; reflexivity.
    + destruct (String.eqb chosen EmptyString); cbn [self log screen set_target_path started];
        (split; [assumption | ]); eexists; split; reflexivity.
  - rewrite stop_recording_unfold. cbn [snd].
    destruct (recording (self w)); cbn [self log screen stopped].
    + split; [assumption | ]. eexists. split; [reflexivity | ].
      unfold release_events. destruct (writer (self w)); reflexivity.
    + split; [assumption | ]. exists []. rewrite app_nil_r. split; reflexivity.
  - rewrite close_event_unfold. cbn [snd].
    destruct (recording (self w)); cbn [self log screen stopped].
    + split; [assumption | ]. eexists. split; [reflexivity | ].
      unfold release_events. destruct (writer (self w)); reflexivity.
    + split; [assumption | ]. eexists. split; reflexivity.
  - rewrite on_tick_unfold, Hs. cbn [negb snd]. split; [assumption | ].
    exists []. rewrite app_nil_r. split; reflexivity.
  - cbn. split; [assumption | ]. exists []. rewrite app_nil_r. split; reflexivity.
  - cbn. split; [assumption | ]. exists []. rewrite app_nil_r. split; reflexivity.
  - cbn. split; [assumption | ]. exists []. rewrite app_nil_r. split; reflexivity.
Qed.

Lemma run_no_screen (acts : list action) :
  forall w, consistent (self w) -> screen (self w) = false ->
  exists evs, log (run acts w) = log w ++ evs
              /\ forallb (fun e => negb (captures e)) evs = true.
Proof.
  induction acts as [ | a acts IH]; intros w Hc Hs.
  - exists []. cbn [run fold_left]. rewrite app_nil_r. split; reflexivity.
  - destruct (exec_no_screen a w Hc Hs) as (Hs1 & evs1 & Hl1 & Hq1).
    rewrite run_cons.
    destruct (IH (exec a w) (exec_consistent a w Hc) Hs1) as (evs2 & Hl2 & Hq2).
    exists (evs1 ++ evs2). split.
    + rewrite Hl2, Hl1, app_assoc. reflexivity.
    + rewrite forallb_app, Hq1, Hq2. reflexivity.
Qed.

(** X8.  When [primaryScreen()] gave no screen, the application never
    grabs, never sets the preview, never constructs a writer and never
    writes a frame, whatever is pressed and however often the timer
    fires, even while it counts as recording. *)
Theorem no_screen_no_capture (acts : list action) :
  forallb (fun e => negb (captures e)) (log (run acts (init false))) = true
  /\ written (log (run acts (init false))) = []
  /\ open_calls (log (run acts (init false))) = [].
Proof.
  destruct (run_no_screen acts (init false) (consistent_init false) eq_refl)
    as (evs & Hl & Hq).
  rewrite Hl. cbn [init log app].
  split; [exact Hq | ].
  clear Hl. induction evs as [ | e evs IH]; [split; reflexivity | ].
  cbn [forallb] in Hq. apply andb_true_iff in Hq. destruct Hq as [He Hq].
  destruct (IH Hq) as [H1 H2].
  destruct e; try discriminate; cbn; split; assumption.
Qed.

(** X9.  A null grab is not guarded.  While recording, a tick whose grab
    has a side of zero pixels grabs and sets the preview, then raises
    [AttributeError] in [qimage_to_numpy], where [img.bits()] is [None]:
    the tick ends there, before any writer is constructed; nothing is
    written and the widget is left as it was. *)
Theorem null_grab_raises (pix : QPixmap) (opens : bool) (w : world) :
  screen (self w) = true -> recording (self w) = true ->
  pix_width pix = 0 \/ pix_height pix = 0 ->
  _on_tick pix opens w
  = (Exc AttributeError,
     {| self := self w;
        log := log w ++ [EvGrab; EvPreview (keep_ratio (self w))] |}).
Proof.
  intros Hs Hr Hnull. rewrite on_tick_unfold, Hs, Hr. cbn [negb].
  assert (E : convert pix (after_preview w) = (Exc AttributeError, after_preview w)).
  { unfold convert. unfold bind at 1. rewrite qimage_to_numpy_unfold.
    destruct (nonempty (pix_width pix, pix_height pix)) eqn:Hne; [ | reflexivity].
    apply nonempty_iff in Hne. cbn [fst snd] in Hne. lia. }
  rewrite E. reflexivity.
Qed.

Lemma null_grab_raises_witness :
  let pix := {| pix_width := 0; pix_height := 0; pix_dpr_is_one := true |} in
  fst (_on_tick pix true w_recording) = Exc AttributeError
  /\ open_calls (log (snd (_on_tick pix true w_recording))) = []
  /\ self (snd (_on_tick pix true w_recording)) = self w_recording.
Proof.
  intro pix.
  rewrite (null_grab_raises pix true w_recording).
  - repeat split.
  - reflexivity.
  - reflexivity.
  - left. reflexivity.
Defined.

(** X10.  The timer and the writer read the spin box at different moments:
    the timer keeps the interval computed when start was pressed, while
    the writer is constructed, for the path the widget holds, with the
    frame rate the spin box shows at the first tick; a change in between
    makes the two disagree. *)
Theorem writer_fps_read_at_first_tick
        (w : world) (chosen : string) (v : Z) (pix : QPixmap) :
  screen (self w) = true -> recording (self w) = false ->
  writer (self w) = None -> fps_box (self w) < 2 ^ 53 ->
  chosen <> EmptyString -> convertible (scale_box (self w)) pix ->
  let w' := run [Start chosen; SetFps v; Tick pix true] w in
  timer (self w')
  = {| timer_active := true;
       timer_interval := 1000 / Z.max 1 (fps_box (self w)) |}
  /\ exists vw,
       writer (self w') = Some vw
       /\ vw_fps vw = Z.max 1 (Z.min 60 v)
       /\ target_path (self w') = Some (vw_filename vw).
Proof.
  intros Hs Hidle Hw Hfps Hch Hpix w'. subst w'.
  cbn [run fold_left].
  set (w1 := exec (Start chosen) w).
  assert (E1 : w1 = {| self := started (self w) chosen
                                 (1000 / Z.max 1 (fps_box (self w)));
                       log := log w ++ [EvDialog;
                                        EvTimerStart (1000 / Z.max 1 (fps_box (self w)))] |}).
  { unfold w1, exec, slot. rewrite start_recording_unfold by assumption.
    rewrite Hidle.
    replace (String.eqb chosen EmptyString) with false
      by (symmetry; apply String.eqb_neq; assumption).
    reflexivity. }
  set (w2 := exec (SetFps v) w1).
  assert (E2 : self w2 = set_fps_box (Z.max 1 (Z.min 60 v)) (self w1)) by reflexivity.
  pose proof (exec_tick_first pix w2 chosen) as E3. cbv zeta in E3.
  rewrite E3.
  - cbn [self]. rewrite E2, E1. cbn. split; [reflexivity | ].
    eexists. split; [reflexivity | ]. split; reflexivity.
  - rewrite E2, E1. cbn. assumption.
  - rewrite E2, E1. reflexivity.
  - rewrite E2, E1. cbn. assumption.
  - rewrite E2, E1. cbn. assumption.
  - rewrite E2, E1. reflexivity.
Qed.

Lemma writer_fps_read_at_first_tick_witness :
  let w' := run [Start "out.mp4"; SetFps 60; Tick pix_1080p true] (init true) in
  timer_interval (timer (self w')) = 50
  /\ exists vw, writer (self w') = Some vw /\ vw_fps vw = 60.
Proof.
  intro w'.
  destruct (writer_fps_read_at_first_tick (init true) "out.mp4" 60 pix_1080p)
    as (Ht & vw & Hw & Hf & _); try reflexivity; try discriminate.
  - unfold convertible; cbn; lia.
  - fold w' in Ht, Hw. split; [rewrite Ht; reflexivity | ].
    exists vw. split; [exact Hw | exact Hf].
Defined.

Lemma exec_session_frame (a : action) (w : world) :
  in_session a = true ->
  timer (self (exec a w)) = timer (self w)
  /\ recording (self (exec a w)) = recording (self w)
  /\ target_path (self (exec a w)) = target_path (self w)
  /\ screen (self (exec a w)) = screen (self w)
  /\ btn_start_enabled (self (exec a w)) = btn_start_enabled (self w)
  /\ btn_stop_enabled (self (exec a w)) = btn_stop_enabled (self w).
Proof.
  intro Ha.
  destruct a as [chosen | r | r | pix opens | v | i | b]; try discriminate.
  - destruct (exec_tick_step pix opens w); conjs; reflexivity.
  - conjs; reflexivity.
  - conjs; reflexivity.
  - conjs; reflexivity.
Qed.

(** X11.  Within a session nothing re-arms the timer or moves the output:
    ticks and changes of the frame rate, the scale or the aspect box leave
    the timer (its state and its interval), the recording flag, the output
    path and both buttons as they were. *)
Theorem session_keeps_timer_and_path (acts : list action) (w : world) :
  forallb in_session acts = true ->
  timer (self (run acts w)) = timer (self w)
  /\ recording (self (run acts w)) = recording (self w)
  /\ target_path (self (run acts w)) = target_path (self w)
  /\ btn_start_enabled (self (run acts w)) = btn_start_enabled (self w)
  /\ btn_stop_enabled (self (run acts w)) = btn_stop_enabled (self w).
Proof.
  revert w. induction acts as [ | a acts IH]; intros w Hin.
  - conjs; reflexivity.
  - cbn [forallb] in Hin. apply andb_true_iff in Hin. destruct Hin as [Ha Hin].
    rewrite run_cons.
    destruct (IH (exec a w) Hin) as (H1 & H2 & H3 & H4 & H5).
    destruct (exec_session_frame a w Ha) as (G1 & G2 & G3 & _ & G4 & G5).
    conjs; congruence.
Qed.

Lemma session_keeps_timer_and_path_witness :
  let acts := [SetFps 5; Tick pix_1080p true; SetScale Quarter; Tick pix_1080p true] in
  timer (self (run acts w_recording))
  = {| timer_active := true; timer_interval := 50 |}.
Proof.
  intro acts.
  destruct (session_keeps_timer_and_path acts w_recording) as (Ht & _).
  - reflexivity.
  - rewrite Ht. reflexivity.
Defined.

(** X12.  The downscale truncates and never enlarges: under the scale
    entry of denominator d, a convertible grab of W x H pixels gives a
    buffer with d * columns <= W < d * (columns + 1) and at least one
    column, and likewise for the rows.  Nothing guards a grab that is not
    empty but narrower (or lower) than d pixels: the size handed to the
    resize then has a zero side, and the conversion raises [cv2.error]. *)
Theorem downscale_truncates (pix : QPixmap) (w : world) :
  let d := scale_den (scale_box (self w)) in
  (convertible (scale_box (self w)) pix ->
   exists c,
     convert pix w = (Ret c, w)
     /\ d * cols c <= pix_width pix < d * (cols c + 1)
     /\ d * rows c <= pix_height pix < d * (rows c + 1)
     /\ 1 <= cols c <= pix_width pix
     /\ 1 <= rows c <= pix_height pix)
  /\ (1 <= pix_width pix < 2 ^ 53 -> 1 <= pix_height pix < 2 ^ 53 ->
      pix_width pix < d \/ pix_height pix < d ->
      convert pix w = (Exc Cv2Error, w)).
Proof.
  intro d.
  assert (Hd : 1 <= d) by apply scale_den_pos.
  split.
  - intros Hpix. pose proof Hpix as [Hw Hh]. fold d in Hw, Hh.
    exists (converted (pix_width pix) (pix_height pix) (scale_box (self w))).
    split; [apply convert_ok; assumption | ].
    unfold cols, rows. rewrite shape_converted. cbn [fst snd].
    rewrite !scaled_div. fold d.
    pose proof (Z.mul_div_le (pix_width pix) d ltac:(lia)).
    pose proof (Z.mul_succ_div_gt (pix_width pix) d ltac:(lia)).
    pose proof (Z.mul_div_le (pix_height pix) d ltac:(lia)).
    pose proof (Z.mul_succ_div_gt (pix_height pix) d ltac:(lia)).
    assert (Hq1 : 0 < pix_width pix / d) by (apply Z.div_str_pos; lia).
    assert (Hq2 : 0 < pix_height pix / d) by (apply Z.div_str_pos; lia).
    conjs; nia.
  - intros Hw Hh Hsmall.
    rewrite convert_unfold by lia. cbv zeta.
    rewrite nonempty_pair by lia.
    destruct (nonempty (scaled (pix_width pix) (scale_box (self w)),
                        scaled (pix_height pix) (scale_box (self w)))) eqn:Hne.
    + apply nonempty_iff in Hne. cbn [fst snd] in Hne.
      rewrite !scaled_div in Hne. fold d in Hne. destruct Hne as [H1 H2].
      destruct Hsmall as [Hs | Hs];
        [rewrite Z.div_small in H1 by lia | rewrite Z.div_small in H2 by lia]; lia.
    + subst d. destruct (scale_box (self w)); cbn [scale_den] in Hsmall;
        [lia | reflexivity | reflexivity | reflexivity].
Qed.

Lemma downscale_truncates_witness :
  let w := exec (SetScale Quarter) (init true) in
  let small := {| pix_width := 3; pix_height := 1080; pix_dpr_is_one := true |} in
  (exists c, convert pix_1080p w = (Ret c, w) /\ cols c = 480 /\ rows c = 270)
  /\ convert small w = (Exc Cv2Error, w).
Proof.
  intros w small. split.
  - destruct (proj1 (downscale_truncates pix_1080p w)) as (c & Hc & Hx & Hy & _).
    + unfold convertible; cbn; lia.
    + change (scale_den (scale_box (self w))) with 4 in Hx, Hy.
      change (pix_width pix_1080p) with 1920 in Hx.
      change (pix_height pix_1080p) with 1080 in Hy.
      exists c. split; [exact Hc | ]. split; lia.
  - apply (proj2 (downscale_truncates small w)).
    + cbn; lia.
    + cbn; lia.
    + left. cbn. lia.
Defined.

Lemma chunks_length {A : Type} (size count : nat) (l : list A) :
  List.length (chunks size count l) = count.
Proof.
  revert l. induction count as [ | k IH]; intro l; [reflexivity | ].
  cbn [chunks List.length]. rewrite IH. reflexivity.
Qed.

Lemma chunks_sizes {A : Type} (size count : nat) :
  forall l : list A, List.length l = (count * size)%nat ->
  Forall (fun ch => List.length ch = size) (chunks size count l).
Proof.
  induction count as [ | k IH]; intros l Hl; [constructor | ].
  cbn [chunks]. constructor.
  - rewrite length_firstn. lia.
  - apply IH. rewrite length_skipn. lia.
Qed.

Lemma chunks_concat {A : Type} (size count : nat) :
  forall l : list A, List.length l = (count * size)%nat ->
  List.concat (chunks size count l) = l.
Proof.
  induction count as [ | k IH]; intros l Hl.
  - destruct l; [reflexivity | discriminate].
  - cbn [chunks List.concat]. rewrite IH by (rewrite length_skipn; lia).
    apply firstn_skipn.
Qed.

Lemma chunks_nth {A : Type} (size count : nat) :
  forall (l : list A) (i : nat), (i < count)%nat ->
  nth_error (chunks size count l) i = Some (firstn size (skipn (i * size) l)).
Proof.
  induction count as [ | k IH]; intros l i Hi; [lia | ].
  destruct i as [ | i]; cbn [chunks nth_error].
  - reflexivity.
  - rewrite IH by lia. rewrite skipn_skipn. do 3 f_equal. lia.
Qed.

Lemma slice_nth {A : Type} (size start i : nat) (l : list A) :
  (i < size)%nat ->
  nth_error (firstn size (skipn start l)) i = nth_error l (start + i).
Proof.
  intro Hi. rewrite nth_error_firstn.
  replace (i <? size)%nat with true by (symmetry; apply Nat.ltb_lt; assumption).
  apply nth_error_skipn.
Qed.

Lemma reshape3_item {A : Type} (h w c : nat) (flat : list A) (y x k : nat) :
  (y < h)%nat -> (x < w)%nat -> (k < c)%nat ->
  item (chunks w h (chunks c (h * w) flat)) y x k
  = nth_error flat ((y * w + x) * c + k).
Proof.
  intros Hy Hx Hk. unfold item.
  rewrite chunks_nth by assumption.
  rewrite slice_nth by assumption.
  rewrite chunks_nth by nia.
  apply slice_nth. assumption.
Qed.

(** X13.  [qimage_to_numpy] lays the bytes out as rows of pixels of four
    bytes without moving any: for an image that is not null (both sides
    positive) and whose buffer holds 4 bytes per pixel, the array has
    [height] rows of [width] pixels of 4 bytes, flattening it gives the
    buffer back, and [arr[y, x, k]] is byte [(y * width + x) * 4 + k] of
    the buffer. *)
Theorem qimage_to_numpy_layout (img : QImageData) :
  (0 < qd_width img)%nat -> (0 < qd_height img)%nat ->
  List.length (qd_bits img) = (qd_height img * qd_width img * 4)%nat ->
  exists arr,
    qimage_to_numpy_data img = inr arr
    /\ List.length arr = qd_height img
    /\ Forall (fun row => List.length row = qd_width img
                          /\ Forall (fun px => List.length px = 4%nat) row) arr
    /\ List.concat (List.concat arr) = qd_bits img
    /\ forall y x k, (y < qd_height img)%nat -> (x < qd_width img)%nat -> (k < 4)%nat ->
         item arr y x k = nth_error (qd_bits img) ((y * qd_width img + x) * 4 + k).
Proof.
  intros Hwd Hht Hlen. unfold qimage_to_numpy_data, reshape3. cbv zeta.
  replace (Nat.eqb (qd_width img) 0) with false
    by (symmetry; apply Nat.eqb_neq; lia).
  replace (Nat.eqb (qd_height img) 0) with false
    by (symmetry; apply Nat.eqb_neq; lia).
  cbn [orb]. rewrite Hlen, Nat.eqb_refl.
  set (h := qd_height img) in *. set (w := qd_width img) in *.
  set (bits := qd_bits img) in *.
  set (pixels := chunks 4 (h * w) bits).
  assert (Hpx : List.length pixels = (h * w)%nat) by apply chunks_length.
  assert (Hpx4 : Forall (fun px => List.length px = 4%nat) pixels)
    by (apply chunks_sizes; lia).
  eexists. split; [reflexivity | ]. fold pixels.
  split; [apply chunks_length | ]. split; [ | split].
  - pose proof (chunks_sizes w h pixels Hpx) as Hrows.
    assert (Hin : Forall (fun row => Forall (fun px => List.length px = 4%nat) row)
                         (chunks w h pixels)).
    { apply Forall_forall. intros row Hrow.
      apply Forall_forall. intros px Hin.
      rewrite Forall_forall in Hpx4. apply Hpx4.
      assert (Hcat : In px (List.concat (chunks w h pixels)))
        by (apply in_concat; exists row; split; assumption).
      rewrite (chunks_concat w h pixels Hpx) in Hcat. exact Hcat. }
    clear - Hrows Hin. induction Hrows as [ | row rows Hr _ IH]; [constructor | ].
    inversion Hin; subst. constructor; [split; assumption | apply IH; assumption].
  - rewrite (chunks_concat w h pixels Hpx). apply chunks_concat. lia.
  - intros y x k Hy Hx Hk. apply reshape3_item; assumption.
Qed.

Lemma qimage_to_numpy_layout_witness :
  let img := {| qd_width := 2; qd_height := 1;
                qd_bits := [x10; x20; x30; xff; x40; x50; x60; xff] |} in
  exists arr, qimage_to_numpy_data img = inr arr
              /\ item arr 0 1 2 = Some x60.
Proof.
  intro img.
  destruct (qimage_to_numpy_layout img) as (arr & Ha & _ & _ & _ & Hi).
  - cbn; lia.
  - cbn; lia.
  - reflexivity.
  - exists arr. split; [exact Ha | ].
    rewrite Hi by (cbn; lia). reflexivity.
Defined.

Lemma exec_screen (a : action) (w : world) :
  consistent (self w) -> screen (self (exec a w)) = screen (self w).
Proof.
  intros (Hf & _).
  destruct a as [chosen | r | r | pix opens | v | i | b]; unfold exec, slot.
  - rewrite start_recording_unfold by lia. cbn [snd].
    destruct (recording (self w)); [reflexivity | ].
    destruct (String.eqb chosen EmptyString); reflexivity.
  - rewrite stop_recording_unfold. cbn [snd].
    destruct (recording (self w)); reflexivity.
  - rewrite close_event_unfold. cbn [snd].
    destruct (recording (self w)); reflexivity.
  - fold (slot (Tick pix opens)). fold (exec (Tick pix opens) w).
    destruct (exec_tick_step pix opens w); reflexivity.
  - reflexivity.
  - reflexivity.
  - reflexivity.
Qed.

Lemma run_screen (acts : list action) :
  forall w, consistent (self w) -> screen (self (run acts w)) = screen (self w).
Proof.
  induction acts as [ | a acts IH]; intros w Hc; [reflexivity | ].
  rewrite run_cons, IH by (apply exec_consistent; assumption).
  apply exec_screen. assumption.
Qed.

(** X14.  Every session starts afresh: whatever was recorded before, once
    the application is idle again a new start followed by a tick whose
    writer opens (its grab being convertible) constructs a new writer for
    the path the widget then holds, sized by that tick's own grab under the
    current scale and with the current frame rate, and writes the
    converted frame to it; the size of an earlier session is not carried
    over. *)
Theorem new_session_new_writer
        (acts : list action) (chosen : string) (pix : QPixmap) :
  let w := run acts (init true) in
  let w1 := exec (Start chosen) w in
  let g := (scaled (pix_width pix) (scale_box (self w)),
            scaled (pix_height pix) (scale_box (self w))) in
  let c := converted (pix_width pix) (pix_height pix) (scale_box (self w)) in
  recording (self w) = false -> chosen <> EmptyString ->
  convertible (scale_box (self w)) pix ->
  exists p vw,
    target_path (self w1) = Some p
    /\ writer (self w1) = None /\ target_size (self w1) = None
    /\ vw = {| vw_filename := p; vw_fourcc := fourcc_of_path p;
               vw_fps := fps_box (self w); vw_frameSize := g;
               vw_isOpened := true |}
    /\ run [Start chosen; Tick pix true] w
       = {| self := set_target_size (Some g) (set_writer (Some vw) (self w1));
            log := log w1 ++ [EvGrab; EvPreview (keep_ratio (self w));
                              EvOpen vw; EvWrite vw c] |}.
Proof.
  intros w w1 g c Hidle Hch Hpix.
  pose proof (run_consistent acts (init true) (consistent_init true)) as Hc.
  fold w in Hc.
  pose proof (run_screen acts (init true) (consistent_init true)) as Hs.
  fold w in Hs. cbn [init self screen] in Hs.
  destruct Hc as (Hf & Ht & _). rewrite Hidle in Ht. destruct Ht as (_ & Hw & _ & Hts).
  set (ms := 1000 / Z.max 1 (fps_box (self w))).
  assert (E1 : w1 = {| self := started (self w) chosen ms;
                       log := log w ++ [EvDialog; EvTimerStart ms] |}).
  { unfold w1, exec, slot. rewrite start_recording_unfold by lia. rewrite Hidle.
    replace (String.eqb chosen EmptyString) with false
      by (symmetry; apply String.eqb_neq; assumption).
    reflexivity. }
  exists chosen. eexists.
  split; [rewrite E1; reflexivity | ].
  split; [rewrite E1; exact Hw | ].
  split; [rewrite E1; exact Hts | ].
  split; [reflexivity | ].
  cbn [run fold_left]. fold w1.
  pose proof (exec_tick_first pix w1 chosen) as E2. cbv zeta in E2.
  rewrite E2.
  - rewrite E1. cbn [self log started scale_box keep_ratio].
    unfold writer_for. cbn [started fps_box].
    rewrite (geometry_converted (pix_width pix) (pix_height pix) (scale_box (self w))).
    reflexivity.
  - rewrite E1. exact Hs.
  - rewrite E1. reflexivity.
  - rewrite E1. exact Hpix.
  - rewrite E1. exact Hw.
  - rewrite E1. reflexivity.
Qed.

Lemma new_session_new_writer_witness :
  let acts := [Start "a.mp4"; Tick pix_1080p true; Stop false; SetScale Half] in
  exists vw,
    writer (self (run [Start "b.avi"; Tick pix_1080p true] (run acts (init true))))
    = Some vw
    /\ vw_frameSize vw = (960, 540) /\ vw_fps vw = 20.
Proof.
  intro acts.
  destruct (new_session_new_writer acts "b.avi" pix_1080p)
    as (p & vw & _ & _ & _ & Hvw & Hrun).
  - reflexivity.
  - discriminate.
  - unfold convertible; cbn; lia.
  - rewrite Hrun. exists vw. split; [reflexivity | ]. rewrite Hvw. split; reflexivity.
Defined.
